(** * DarkSearch: a shallow embedding of [DarkSearch.py]

    The program queries a paginated search API: [search] fetches the first
    page and spawns [NUMBER_OF_THREADS] [SearchThread]s, each of which walks
    a page range through a proxy popped from the global list [PROXIES] and
    appends what it parses to the global list [RESULTS]; [main] waits for the
    threads, handles Ctrl-C, and calls [export].

    The embedding keeps the three module-level lists ([PROXIES], [THREADS],
    [RESULTS]) in one shared [State], together with what the program does to
    the outside world (standard output, the requests it sends, the file it
    writes).  Threads are modelled by a program counter per thread and a
    step function; a run of the program is a list of scheduling events, each
    of which lets the main thread or one [SearchThread] take its next step
    and tells what the network answers if that step is a request.

    Granularity.  A step of a thread is one of: the first [PROXIES.pop()],
    the [while] test, the rotation test with its [pop], the request with
    the handling of its response, [time.sleep(1)], the final
    [PROXIES.append(proxy)].  A call of [search] is one step of the main
    thread.  Ctrl-C is taken into account where [main] handles it, around
    the [join]s. *)

From Stdlib Require Import ZArith Lia Ascii String Sorted.
From stdpp Require Import base list gmap strings.

Local Set Warnings "-register-all".
Local Open Scope Z_scope.

(** ** Values of the Python runtime *)

(** What [response.json()] returns.  JSON numbers are taken to be integers
    (the API documents [total], [current_page] and [last_page] as such);
    Python's [None] is [JNull]. *)
Inductive json : Type :=
  | JNull
  | JBool (b : bool)
  | JNum (n : Z)
  | JStr (s : string)
  | JArr (l : list json)
  | JObj (d : gmap string json).

(** The exception classes that can travel through the two [try] blocks.
    The first three are the program's own; [HTTPError] is the one raised by
    [raise_for_status]; the others are built-in or [requests] exceptions,
    all of them subclasses of [Exception]. *)
Inductive exn : Type :=
  | NoQueryException
  | InvalidPageException
  | QuotaOverloadException
  | HTTPError
  | RequestException
  | ValueError
  | TypeError
  | AttributeError
  | IndexError
  | ZeroDivisionError.

(** Two operations of the interpreter whose result the source does not fix:
    [int(s)] on a [str], and the identity test [a is b] on two [int]
    objects.  Identical objects are equal, which is all that is assumed. *)
Class PyRuntime := {
  int_of_str : string → option Z;
  int_is : Z → Z → bool;
  int_is_sound : ∀ a b, int_is a b = true → a = b
}.

(** [int(v)] *)
Definition py_int `{PyRuntime} (v : json) : exn + Z :=
  match v with
  | JNum n => inr n
  | JBool b => inr (if b then 1 else 0)
  | JStr s => match int_of_str s with Some n => inr n | None => inl ValueError end
  | JNull | JArr _ | JObj _ => inl TypeError
  end.

(** The numeric value of [v] in an ordering comparison with an [int]
    ([None]: the comparison raises [TypeError]). *)
Definition py_num (v : json) : option Z :=
  match v with
  | JNum n => Some n
  | JBool b => Some (if b then 1 else 0)
  | _ => None
  end.

(** [v.get(key, None)]: only a dict has [get] ([None]: [AttributeError]). *)
Definition py_get (v : json) (key : string) : option json :=
  match v with
  | JObj d => Some (default JNull (d !! key))
  | _ => None
  end.

(** The items [for r in v] runs through ([None]: [v] is not iterable).
    A dict yields its keys and a string its characters. *)
Definition py_iter (v : json) : option (list json) :=
  match v with
  | JArr l => Some l
  | JObj d => Some ((λ kv, JStr kv.1) <$> map_to_list d)
  | JStr s => Some ((λ c, JStr (String c EmptyString)) <$> String.list_ascii_of_string s)
  | JNull | JBool _ | JNum _ => None
  end.

(** [math.ceil(a / b)] for [int]s [a] and [b > 0].  Python divides in
    floating point first; for [|a| < 2^53] and the divisors used here the
    result is the exact ceiling, which is what is modelled. *)
Definition ceil_div (a b : Z) : Z := - ((- a) / b).

(** [l.pop()]: the last element and the list without it
    ([None]: [IndexError], pop from empty list). *)
Definition list_pop {A} (l : list A) : option (A * list A) :=
  match last l with
  | Some x => Some (x, removelast l)
  | None => None
  end.

(** ** Constants *)

Definition QUERIES_PER_MINUTE : Z := 30.
Definition PROXY_FAIL_LIMIT : Z := 10.
Definition NUMBER_OF_THREADS : nat := 5.

(** ** Data *)

(** [class Result] *)
Record Result := {
  title : json;
  link : json;
  description : json
}.

(** Where a [SearchThread] stands in [run]. *)
Inductive wpc : Type :=
  | WStart     (* started, before [proxy = PROXIES.pop()] *)
  | WHead      (* at the [while] test *)
  | WTry       (* inside [try], before the rotation test *)
  | WFetch     (* at [requests.get] *)
  | WSleep     (* at [time.sleep(1)] *)
  | WRelease   (* after the loop, before [PROXIES.append(proxy)] *)
  | WDone      (* [run] has returned *)
  | WCrashed.  (* [run] was left by an exception *)

#[global] Instance wpc_eq_dec : EqDecision wpc.
Proof. solve_decision. Defined.

(** [class SearchThread]: the attributes set by [__init__], then the local
    variables of [run] and its program counter. *)
Record SearchThread := {
  name : nat;
  kill_received : bool;
  query : string;
  start_page : Z;
  end_page : Z;
  counter : Z;
  proxy_fail_counter : Z;
  proxy : option string;
  at_ : wpc
}.

(** A call of [requests.get]: who made it ([None]: [search], [Some i]: the
    thread at index [i] of [THREADS]), for which query and page, through
    which proxy. *)
Record Request := {
  req_by : option nat;
  req_query : string;
  req_page : Z;
  req_proxy : option string
}.

(** What [requests.get] and the response give back. *)
Inductive fetched : Type :=
  | GetRaises                                   (* [requests.get] raises *)
  | Response (status_code : Z) (body : option json).
                                     (* [body = None]: [json()] raises *)

(** The lines printed on standard output. *)
Inductive line : Type :=
  | L_size_of_results (n : nat)
  | L_current_page (v : json)
  | L_final_page (v : json)
  | L_proxies_added (n : nat)
  | L_scraping_threads (n : nat)
  | L_queries_per_thread (n : Z)
  | L_thread_range (i : nat) (first last : Z)
  | L_estimated_time (n : Z)
  | L_no_query
  | L_invalid_page
  | L_quota
  | L_http_error
  | L_exception (e : exn)
  | T_using_proxy (i : nat) (p : string)
  | T_loop_flag (b : bool)
  | T_received (i : nat) (n : nat)
  | T_invalid_page
  | T_quota (i : nat)
  | T_http_error (i : nat)
  | T_exception (i : nat) (e : exn)
  | T_finished (i : nat)
  | M_counter_is (c : Z)
  | M_stopping.

(** Where the main thread stands in [main]. *)
Inductive mpc : Type :=
  | MStart              (* before [search] *)
  | MWait (c : Z)       (* at [while has_live_threads()], [counter = c] *)
  | MJoin (c : Z)       (* inside [try], joining *)
  | MFinished           (* [export] has returned *)
  | MExited.            (* [sys.exit(0)] *)

(** The shared state. *)
Record State := {
  PROXIES : list string;
  THREADS : list SearchThread;
  RESULTS : list Result;
  STDOUT : list line;
  NET : list Request;
  OUTFILE : option (string * json);
  MAIN : mpc
}.

(** *** Field updates *)

Definition set_kill (b : bool) (w : SearchThread) : SearchThread :=
  {| name := name w; kill_received := b; query := query w;
     start_page := start_page w; end_page := end_page w;
     counter := counter w; proxy_fail_counter := proxy_fail_counter w;
     proxy := proxy w; at_ := at_ w |}.

Definition set_counter (c : Z) (w : SearchThread) : SearchThread :=
  {| name := name w; kill_received := kill_received w; query := query w;
     start_page := start_page w; end_page := end_page w;
     counter := c; proxy_fail_counter := proxy_fail_counter w;
     proxy := proxy w; at_ := at_ w |}.

Definition set_fail (f : Z) (w : SearchThread) : SearchThread :=
  {| name := name w; kill_received := kill_received w; query := query w;
     start_page := start_page w; end_page := end_page w;
     counter := counter w; proxy_fail_counter := f;
     proxy := proxy w; at_ := at_ w |}.

Definition set_proxy (p : option string) (w : SearchThread) : SearchThread :=
  {| name := name w; kill_received := kill_received w; query := query w;
     start_page := start_page w; end_page := end_page w;
     counter := counter w; proxy_fail_counter := proxy_fail_counter w;
     proxy := p; at_ := at_ w |}.

Definition goto (pc : wpc) (w : SearchThread) : SearchThread :=
  {| name := name w; kill_received := kill_received w; query := query w;
     start_page := start_page w; end_page := end_page w;
     counter := counter w; proxy_fail_counter := proxy_fail_counter w;
     proxy := proxy w; at_ := pc |}.

Definition set_PROXIES (P : list string) (s : State) : State :=
  {| PROXIES := P; THREADS := THREADS s; RESULTS := RESULTS s;
     STDOUT := STDOUT s; NET := NET s; OUTFILE := OUTFILE s; MAIN := MAIN s |}.

Definition set_THREADS (T : list SearchThread) (s : State) : State :=
  {| PROXIES := PROXIES s; THREADS := T; RESULTS := RESULTS s;
     STDOUT := STDOUT s; NET := NET s; OUTFILE := OUTFILE s; MAIN := MAIN s |}.

Definition set_RESULTS (R : list Result) (s : State) : State :=
  {| PROXIES := PROXIES s; THREADS := THREADS s; RESULTS := R;
     STDOUT := STDOUT s; NET := NET s; OUTFILE := OUTFILE s; MAIN := MAIN s |}.

Definition print (l : line) (s : State) : State :=
  {| PROXIES := PROXIES s; THREADS := THREADS s; RESULTS := RESULTS s;
     STDOUT := STDOUT s ++ [l]; NET := NET s; OUTFILE := OUTFILE s;
     MAIN := MAIN s |}.

Definition send (r : Request) (s : State) : State :=
  {| PROXIES := PROXIES s; THREADS := THREADS s; RESULTS := RESULTS s;
     STDOUT := STDOUT s; NET := NET s ++ [r]; OUTFILE := OUTFILE s;
     MAIN := MAIN s |}.

Definition set_OUTFILE (f : option (string * json)) (s : State) : State :=
  {| PROXIES := PROXIES s; THREADS := THREADS s; RESULTS := RESULTS s;
     STDOUT := STDOUT s; NET := NET s; OUTFILE := f; MAIN := MAIN s |}.

Definition set_MAIN (m : mpc) (s : State) : State :=
  {| PROXIES := PROXIES s; THREADS := THREADS s; RESULTS := RESULTS s;
     STDOUT := STDOUT s; NET := NET s; OUTFILE := OUTFILE s; MAIN := m |}.

(** ** Statements that may raise

    A block of statements over a store [Σ] either completes or raises; the
    store keeps what was done before the exception. *)

Definition py (Σ A : Type) : Type := Σ → Σ * (exn + A).

Definition ret {Σ A} (a : A) : py Σ A := λ s, (s, inr a).
Definition raise {Σ A} (e : exn) : py Σ A := λ s, (s, inl e).
Definition bind {Σ A B} (m : py Σ A) (k : A → py Σ B) : py Σ B :=
  λ s, match m s with
       | (s', inr a) => k a s'
       | (s', inl e) => (s', inl e)
       end.
Definition read {Σ} : py Σ Σ := λ s, (s, inr s).
Definition modify {Σ} (f : Σ → Σ) : py Σ unit := λ s, (f s, inr tt).
Definition or_raise {Σ A} (e : exn) (o : option A) : py Σ A :=
  match o with Some a => ret a | None => raise e end.
Definition of_sum {Σ A} (r : exn + A) : py Σ A :=
  match r with inr a => ret a | inl e => raise e end.

Notation "'let!' x ':=' m 'in' k" := (bind m (λ x, k))
  (at level 10, x name, m at level 100, k at level 200).
Notation "m ';;' k" := (bind m (λ _, k))
  (at level 100, k at level 200, right associativity).

(** ** The program *)

(** [Response.raise_for_status] of [requests] raises [HTTPError] for the
    4xx and 5xx status codes. *)
Definition raise_for_status (status_code : Z) : bool :=
  (400 <=? status_code) && (status_code <? 600).

(** [Result(r.get("title"), r.get("link"), r.get("description"))] for a
    dict [r]. *)
Definition Result_of_dict (r : gmap string json) : Result :=
  {| title := default JNull (r !! "title");
     link := default JNull (r !! "link");
     description := default JNull (r !! "description") |}.

(** [for r in data: RESULTS.append(Result(...))], on the list [RESULTS]:
    an item without [get] stops the loop with [AttributeError], after the
    items before it have been appended. *)
Fixpoint append_results (items : list json) (R : list Result)
  : list Result * option exn :=
  match items with
  | [] => (R, None)
  | JObj r :: rest => append_results rest (R ++ [Result_of_dict r])
  | _ :: _ => (R, Some AttributeError)
  end.

(** [SearchThread.__init__], followed by [start()]: the thread is alive
    and has not run its first statement.  The locals of [run] are not bound
    yet; [counter] and [proxy_fail_counter] get their values in the first
    step. *)
Definition SearchThread_init (i : nat) (q : string) (first last : Z)
  : SearchThread :=
  {| name := i; kill_received := false; query := q;
     start_page := first; end_page := last;
     counter := 0; proxy_fail_counter := 0; proxy := None; at_ := WStart |}.

(** The request [search] sends. *)
Definition first_request (q : string) (page : Z) : Request :=
  {| req_by := None; req_query := q; req_page := page; req_proxy := None |}.

(** The request a thread sends from where it stands. *)
Definition thread_request (i : nat) (w : SearchThread) : Request :=
  {| req_by := Some i; req_query := query w; req_page := counter w;
     req_proxy := proxy w |}.

Section Program.
Context `{PyRuntime}.

(** The [for i in range(0, NUMBER_OF_THREADS)] loop of [search]. *)
Fixpoint spawn_threads (q : string) (queries_per_thread : Z) (last_page : json)
    (range : list nat) (thread_current_page : Z) : py State unit :=
  match range with
  | [] => ret tt
  | i :: range' =>
      let thread_last_page := thread_current_page + queries_per_thread in
      let! lp := or_raise TypeError (py_num last_page) in
      let thread_last_page :=
        if thread_last_page >? lp then lp else thread_last_page in
      modify (print (L_thread_range i thread_current_page thread_last_page)) ;;
      modify (λ s, set_THREADS
                     (THREADS s ++
                        [SearchThread_init i q thread_current_page
                           thread_last_page]) s) ;;
      spawn_threads q queries_per_thread last_page range' (thread_last_page + 1)
  end.

(** The part of the [try] of [search] that follows
    [content = response.json()]. *)
Definition search_content (q : string) (content : json) : py State unit :=
  let! total := or_raise AttributeError (py_get content "total") in
  match total with
  | JNull => ret tt
  | _ =>
    let! current_page :=
      or_raise AttributeError
        (match content with
         | JObj d => Some (default (JNum 1) (d !! "current_page"))
         | _ => None
         end) in
    let! last_page := or_raise AttributeError (py_get content "last_page") in
    let! data := or_raise AttributeError (py_get content "data") in
    let! items := or_raise TypeError (py_iter data) in
    let! s := read in
    let '(R, e) := append_results items (RESULTS s) in
    modify (set_RESULTS R) ;;
    match e with Some x => raise x | None => ret tt end ;;
    modify (print (L_size_of_results (length R))) ;;
    modify (print (L_current_page current_page)) ;;
    modify (print (L_final_page last_page)) ;;
    let! lp := of_sum (py_int last_page) in
    let! cp := of_sum (py_int current_page) in
    let remaining_pages := lp - cp in
    let queries_per_thread :=
      ceil_div remaining_pages (Z.of_nat NUMBER_OF_THREADS) in
    let estimated_minutes := ceil_div remaining_pages QUERIES_PER_MINUTE in
    modify (print (L_proxies_added (length (PROXIES s)))) ;;
    modify (print (L_scraping_threads NUMBER_OF_THREADS)) ;;
    modify (print (L_queries_per_thread queries_per_thread)) ;;
    let thread_current_page := cp + 1 in
    spawn_threads q queries_per_thread last_page
      (seq 0 NUMBER_OF_THREADS) thread_current_page ;;
    if (length (PROXIES s) =? 0)%nat then raise ZeroDivisionError else
    modify (print (L_estimated_time
                     (ceil_div estimated_minutes
                        (Z.of_nat (length (PROXIES s))))))
  end.

(** The body of the [try] of [search]. *)
Definition search_try (o : fetched) (q : option string) (page : option Z)
  : py State unit :=
  let! q := or_raise NoQueryException q in
  if (Z.of_nat (String.length q) <=? 0) then raise NoQueryException else
  let! page := or_raise InvalidPageException page in
  if (page <=? 0) then raise InvalidPageException else
  modify (send (first_request q page)) ;;
  match o with
  | GetRaises => raise RequestException
  | Response status_code body =>
    if raise_for_status status_code then raise HTTPError else
    if int_is status_code 429 then raise QuotaOverloadException else
    let! content := or_raise ValueError body in
    search_content q content
  end.

(** [search(query, page)]: the [try] and its [except] clauses.  The call is
    one step of the main thread: the threads it starts take their first
    step after it has returned. *)
Definition search (o : fetched) (q : option string) (page : option Z)
    (s : State) : State :=
  match search_try o q page s with
  | (s', inr _) => s'
  | (s', inl NoQueryException) => print L_no_query s'
  | (s', inl InvalidPageException) => print L_invalid_page s'
  | (s', inl QuotaOverloadException) => print L_quota s'
  | (s', inl HTTPError) => print L_http_error s'
  | (s', inl e) => print (L_exception e) s'
  end.

(** *** [SearchThread.run] *)

Definition on_thread (f : SearchThread → SearchThread)
  : py (SearchThread * State) unit := modify (λ ws, (f ws.1, ws.2)).
Definition on_state (f : State → State)
  : py (SearchThread * State) unit := modify (λ ws, (ws.1, f ws.2)).

(** [proxy = PROXIES.pop()] and the [print] after it. *)
Definition take_proxy : py (SearchThread * State) unit :=
  let! ws := read in
  let! pP := or_raise IndexError (list_pop (PROXIES ws.2)) in
  on_state (set_PROXIES pP.2) ;;
  on_thread (set_proxy (Some pP.1)) ;;
  on_state (print (T_using_proxy (name ws.1) pP.1)).

(** The [try] block up to [requests.get]. *)
Definition run_try_rotate : py (SearchThread * State) unit :=
  let! ws := read in
  if proxy_fail_counter ws.1 =? PROXY_FAIL_LIMIT then take_proxy else ret tt.

(** The [try] block from [requests.get] on; [i] is the thread's index in
    [THREADS]. *)
Definition run_try_fetch (i : nat) (o : fetched)
  : py (SearchThread * State) unit :=
  let! ws := read in
  let w := ws.1 in
  on_state (send (thread_request i w)) ;;
  match o with
  | GetRaises => raise RequestException
  | Response status_code body =>
    if raise_for_status status_code then raise HTTPError else
    if int_is status_code 429 then raise QuotaOverloadException else
    let! content := or_raise ValueError body in
    let! data := or_raise AttributeError (py_get content "data") in
    let! items := or_raise TypeError (py_iter data) in
    let '(R, e) := append_results items (RESULTS ws.2) in
    on_state (set_RESULTS R) ;;
    match e with Some x => raise x | None => ret tt end ;;
    on_state (print (T_received (name w) (length items))) ;;
    on_thread (set_counter (counter w + 1)) ;;
    on_thread (set_fail 0)
  end.

(** The [except] clauses of [run], then the way to [time.sleep(1)]. *)
Definition run_except (r : SearchThread * State * (exn + unit))
  : SearchThread * State :=
  let '(w, s, e) := r in
  let bump w := set_fail (proxy_fail_counter w + 1) w in
  let '(w, s) :=
    match e with
    | inr _ => (w, s)
    | inl InvalidPageException => (w, print T_invalid_page s)
    | inl QuotaOverloadException => (w, print (T_quota (name w)) s)
    | inl HTTPError => (bump w, print (T_http_error (name w)) s)
    | inl x => (bump w, print (T_exception (name w) x) s)
    end in
  (goto WSleep w, s).

(** One step of the thread at index [i], on its own record [w] and the
    shared state. *)
Definition run_step (i : nat) (o : fetched) (w : SearchThread) (s : State)
  : SearchThread * State :=
  match at_ w with
  | WStart =>
      let w := set_fail 0 (set_counter (start_page w) w) in
      match take_proxy (w, s) with
      | (ws, inr _) => (goto WHead ws.1, ws.2)
      | (ws, inl _) => (goto WCrashed ws.1, ws.2)
      end
  | WHead =>
      if negb (kill_received w) && (counter w <? end_page w) then
        (goto WTry w,
         print (T_loop_flag (negb (kill_received w)
                             || (counter w <? end_page w))) s)
      else (goto WRelease w, s)
  | WTry =>
      match run_try_rotate (w, s) with
      | (ws, inr _) => (goto WFetch ws.1, ws.2)
      | r => run_except r
      end
  | WFetch => run_except (run_try_fetch i o (w, s))
  | WSleep => (goto WHead w, s)
  | WRelease =>
      (* [proxy] is bound here: see [reachable_proxy_bound] *)
      (goto WDone w,
       print (T_finished (name w))
         (set_PROXIES (PROXIES s ++ option_list (proxy w)) s))
  | WDone | WCrashed => (w, s)
  end.

Definition thread_step (i : nat) (o : fetched) (s : State) : State :=
  match THREADS s !! i with
  | Some w =>
      let '(w', s') := run_step i o w s in
      set_THREADS (<[i := w']> (THREADS s')) s'
  | None => s
  end.

(** *** [export], [has_live_threads], [bye], [main] *)

Definition dict_of_Result (r : Result) : json :=
  JObj (<["title" := title r]>
          (<["link" := link r]> (<["description" := description r]> ∅))).

(** The document [export] hands to [json.dump]. *)
Definition export_doc (R : list Result) : json :=
  JObj (<["results" := JArr (dict_of_Result <$> R)]> ∅).

Definition export (filepath : string) (s : State) : State :=
  set_OUTFILE (Some (filepath, export_doc (RESULTS s))) s.

Definition is_alive (w : SearchThread) : bool :=
  match at_ w with WDone | WCrashed => false | _ => true end.

Definition has_live_threads (s : State) : bool :=
  existsb is_alive (THREADS s).

Definition bye (s : State) : State := set_MAIN MExited s.

(** The parsed command line. *)
Record Args := {
  keyword : string;
  output : option string;
  page : option Z
}.

(** One step of the main thread: the call of [search]; the test of the
    [while] with what follows it ([bye], the way into the [try], or
    [export] after the loop); the [try] with its [except].  [interrupt]
    tells whether Ctrl-C arrives while the threads are being joined.  After
    [bye] the interpreter still lets the threads run to their end; [main]
    does nothing more. *)
Definition main_step (args : Args) (o : fetched) (interrupt : bool)
    (s : State) : State :=
  match MAIN s with
  | MStart =>
      set_MAIN (MWait 0)
        (search o (Some (keyword args)) (Some (default 1 (page args))) s)
  | MWait c =>
      if has_live_threads s then
        if c =? 2 then bye (print (M_counter_is c) s)
        else set_MAIN (MJoin c) s
      else
        set_MAIN MFinished (export (default "results.json" (output args)) s)
  | MJoin c =>
      if interrupt then
        set_MAIN (MWait (c + 1))
          (set_THREADS (set_kill true <$> THREADS s) (print M_stopping s))
      else set_MAIN (MWait c) s
  | MFinished | MExited => s
  end.

(** *** Runs *)

Inductive event : Type :=
  | EvMain (o : fetched) (interrupt : bool)
  | EvThread (i : nat) (o : fetched).

Definition step (args : Args) (e : event) (s : State) : State :=
  match e with
  | EvMain o interrupt => main_step args o interrupt s
  | EvThread i o => thread_step i o s
  end.

Definition exec (args : Args) (evs : list event) (s : State) : State :=
  fold_left (λ s e, step args e s) evs s.

End Program.

(** The state in which [main] is entered: [THREADS] and [RESULTS] are
    empty.  The module itself sets [PROXIES] to [[]] and leaves it to its
    user to fill the list; [proxies] is what the list holds when [main] is
    entered. *)
Definition initial (proxies : list string) : State :=
  {| PROXIES := proxies; THREADS := []; RESULTS := []; STDOUT := [];
     NET := []; OUTFILE := None; MAIN := MStart |}.

(** A runtime to evaluate runs with: [int(s)] reads an optionally signed
    run of ASCII digits, and [is] holds between equal small integers (the
    ones CPython keeps one object of). *)
Fixpoint digits_value (acc : Z) (s : string) : option Z :=
  match s with
  | EmptyString => Some acc
  | String c s' =>
      let n := Z.of_nat (Ascii.nat_of_ascii c) in
      if (48 <=? n) && (n <=? 57)
      then digits_value (10 * acc + (n - 48)) s'
      else None
  end.

Definition decimal (s : string) : option Z :=
  match s with
  | EmptyString => None
  | String "-"%char (String _ _ as t) => Z.opp <$> digits_value 0 t
  | String "+"%char (String _ _ as t) => digits_value 0 t
  | _ => digits_value 0 s
  end.

Definition small_int_is (a b : Z) : bool :=
  (a =? b) && (-5 <=? a) && (a <=? 256).

#[export] Instance small_int_runtime : PyRuntime :=
  {| int_of_str := decimal;
     int_is := small_int_is;
     int_is_sound a b Hab :=
       proj1 (Z.eqb_eq a b)
         (proj1 (andb_prop _ _ (proj1 (andb_prop _ _ Hab)))) |}.

(** ** The steps of a thread, as a relation

    [run_rel i w s w' s']: the thread at index [i], with record [w] in the
    shared state [s], can take a step to [w'] and [s'].  Every case of
    [run_step] is one constructor; what the response holds is left open
    ([run_step_rel] below). *)
Inductive run_rel (i : nat) (w : SearchThread) (s : State)
  : SearchThread → State → Prop :=
  | rel_start_ok p P :
      at_ w = WStart → list_pop (PROXIES s) = Some (p, P) →
      run_rel i w s
        (goto WHead
           (set_proxy (Some p) (set_fail 0 (set_counter (start_page w) w))))
        (print (T_using_proxy (name w) p) (set_PROXIES P s))
  | rel_start_crash :
      at_ w = WStart → list_pop (PROXIES s) = None →
      run_rel i w s
        (goto WCrashed (set_fail 0 (set_counter (start_page w) w))) s
  | rel_head_enter :
      at_ w = WHead → kill_received w = false → counter w < end_page w →
      run_rel i w s (goto WTry w) (print (T_loop_flag true) s)
  | rel_head_exit :
      at_ w = WHead → kill_received w = true ∨ end_page w ≤ counter w →
      run_rel i w s (goto WRelease w) s
  | rel_try_pass :
      at_ w = WTry → proxy_fail_counter w ≠ PROXY_FAIL_LIMIT →
      run_rel i w s (goto WFetch w) s
  | rel_try_rotate p P :
      at_ w = WTry → proxy_fail_counter w = PROXY_FAIL_LIMIT →
      list_pop (PROXIES s) = Some (p, P) →
      run_rel i w s
        (goto WFetch (set_proxy (Some p) w))
        (print (T_using_proxy (name w) p) (set_PROXIES P s))
  | rel_try_empty :
      at_ w = WTry → proxy_fail_counter w = PROXY_FAIL_LIMIT →
      list_pop (PROXIES s) = None →
      run_rel i w s
        (goto WSleep (set_fail (proxy_fail_counter w + 1) w))
        (print (T_exception (name w) IndexError) s)
  | rel_fetch_ok R n :
      at_ w = WFetch →
      run_rel i w s
        (goto WSleep (set_fail 0 (set_counter (counter w + 1) w)))
        (print (T_received (name w) n)
           (set_RESULTS (RESULTS s ++ R) (send (thread_request i w) s)))
  | rel_fetch_fault R l :
      at_ w = WFetch →
      run_rel i w s
        (goto WSleep (set_fail (proxy_fail_counter w + 1) w))
        (print l (set_RESULTS (RESULTS s ++ R) (send (thread_request i w) s)))
  | rel_sleep :
      at_ w = WSleep → run_rel i w s (goto WHead w) s
  | rel_release :
      at_ w = WRelease →
      run_rel i w s (goto WDone w)
        (print (T_finished (name w))
           (set_PROXIES (PROXIES s ++ option_list (proxy w)) s))
  | rel_stutter :
      is_alive w = false → run_rel i w s w s.

(** ** What a call of [search] leaves behind

    [grows P s s']: from [s] to [s'] the lists [THREADS], [RESULTS] and
    [NET] have only been appended to, the new threads satisfy [P], the new
    requests are the dispatcher's, and [PROXIES], the output file and the
    main thread's program counter are the same. *)
Record grows (P : SearchThread → Prop) (s s' : State) : Prop := {
  grows_PROXIES : PROXIES s' = PROXIES s;
  grows_OUTFILE : OUTFILE s' = OUTFILE s;
  grows_MAIN : MAIN s' = MAIN s;
  grows_THREADS : ∃ T, THREADS s' = THREADS s ++ T ∧ Forall P T;
  grows_RESULTS : ∃ R, RESULTS s' = RESULTS s ++ R;
  grows_NET :
    ∃ N, NET s' = NET s ++ N ∧ Forall (λ r, req_by r = None) N
}.

(** A thread as [search] starts it for a response [o]: fresh, and with an
    [end_page] that does not exceed the response's ["last_page"]. *)
Definition spawned_by (o : fetched) (w : SearchThread) : Prop :=
  ∃ i q first last,
    w = SearchThread_init i q first last
    ∧ ∀ st d lp, o = Response st (Some (JObj d)) →
                 d !! "last_page" = Some (JNum lp) → last ≤ lp.

(** ** Vocabulary of the statements *)

(** A thread holds a proxy from its first [pop] until it has appended the
    proxy back. *)
Definition holds_proxy (w : SearchThread) : bool :=
  match at_ w with
  | WHead | WTry | WFetch | WSleep | WRelease => true
  | WStart | WDone | WCrashed => false
  end.

Definition held (w : SearchThread) : nat := if holds_proxy w then 1 else 0.

(** The number of proxies held by threads. *)
Definition checked_out (s : State) : nat := sum_list_with held (THREADS s).

(** In every program point where a thread holds a proxy, its variable
    [proxy] is bound. *)
Definition proxy_bound (w : SearchThread) : Prop :=
  holds_proxy w = true → is_Some (proxy w).

(** The requests sent by the thread at index [i]. *)
Definition requests_by (i : nat) (N : list Request) : list Request :=
  List.filter (λ r, bool_decide (req_by r = Some i)) N.

(** The pages requested by threads (not by [search]). *)
Definition thread_pages (N : list Request) : list Z :=
  req_page <$> List.filter (λ r, bool_decide (req_by r ≠ None)) N.

(** The number of steps the thread at index [i] takes in a run. *)
Definition steps_of (i : nat) (evs : list event) : nat :=
  length (List.filter
            (λ e, match e with
                  | EvThread j _ => bool_decide (j = i)
                  | EvMain _ _ => false
                  end) evs).

(** ** Vocabulary of the proofs *)

(** The exceptions [search_content] can raise. *)
Definition content_error (e : exn) : Prop :=
  e = AttributeError ∨ e = TypeError ∨ e = ValueError
  ∨ e = ZeroDivisionError.

(** The output file is written when, and only when, [main] has left its
    wait loop with no thread alive; it then holds [RESULTS]. *)
Definition export_inv (args : Args) (s : State) : Prop :=
  match MAIN s with
  | MFinished =>
      OUTFILE s = Some (default "results.json" (output args),
                        export_doc (RESULTS s))
      ∧ has_live_threads s = false
  | _ => OUTFILE s = None
  end.

(** With the flag set, a thread is at most [steps_left] steps away from
    its end and sends at most [fetches_left] requests on the way. *)
Definition steps_left (w : SearchThread) : nat :=
  match at_ w with
  | WTry => 5 | WFetch => 4 | WSleep => 3 | WHead => 2 | WRelease => 1
  | WStart => 3
  | WDone | WCrashed => 0
  end.

Definition fetches_left (w : SearchThread) : nat :=
  match at_ w with WTry | WFetch => 1 | _ => 0 end.

(** The ranges the loop of [search] hands out, as triples of the thread's
    name, [start_page] and [end_page]. *)
Fixpoint thread_ranges (queries_per_thread last_page : Z) (range : list nat)
    (thread_current_page : Z) : list (nat * (Z * Z)) :=
  match range with
  | [] => []
  | i :: range' =>
      let thread_last_page := thread_current_page + queries_per_thread in
      let thread_last_page :=
        if thread_last_page >? last_page then last_page
        else thread_last_page in
      (i, (thread_current_page, thread_last_page))
        :: thread_ranges queries_per_thread last_page range'
             (thread_last_page + 1)
  end.

Definition thread_of_range (q : string) (r : nat * (Z * Z)) : SearchThread :=
  SearchThread_init r.1 q r.2.1 r.2.2.

Definition line_of_range (r : nat * (Z * Z)) : line :=
  L_thread_range r.1 r.2.1 r.2.2.

(** A thread whose range ends at or before [lp], and which is inside its
    loop only with [counter] below [end_page]. *)
Definition within (lp : Z) (w : SearchThread) : Prop :=
  end_page w ≤ lp
  ∧ (at_ w = WTry ∨ at_ w = WFetch → counter w < end_page w).

Definition pages_inv (lp : Z) (s : State) : Prop :=
  Forall (within lp) (THREADS s)
  ∧ Forall (λ p, p < lp) (thread_pages (NET s)).

(** A thread whose range is empty from the start: it never enters its
    loop. *)
Definition idle (cp : Z) (w : SearchThread) : Prop :=
  start_page w = cp + 1 ∧ end_page w = cp
  ∧ (at_ w = WHead → counter w = start_page w)
  ∧ at_ w ≠ WTry ∧ at_ w ≠ WFetch ∧ at_ w ≠ WSleep.

Definition idle_inv (cp : Z) (n : nat) (R : list Result) (N : list Request)
    (s : State) : Prop :=
  Forall (idle cp) (THREADS s) ∧ length (THREADS s) = n
  ∧ RESULTS s = R ∧ NET s = N.

(** The pages the loop of [run] goes through for a range: from
    [start_page] up to, but not including, [end_page]. *)
Definition fetches (r : nat * (Z * Z)) (p : Z) : Prop :=
  r.2.1 ≤ p < r.2.2.

(** Every request of a thread is for a page of its own range. *)
Definition in_range (w : SearchThread) : Prop :=
  (at_ w ≠ WStart → start_page w ≤ counter w)
  ∧ (at_ w = WTry ∨ at_ w = WFetch → counter w < end_page w).

Definition range_inv (s : State) : Prop :=
  Forall in_range (THREADS s)
  ∧ ∀ r i, r ∈ NET s → req_by r = Some i →
           ∃ w, THREADS s !! i = Some w
                ∧ start_page w ≤ req_page r < end_page w.

(** The range of a thread as a triple, like those of [thread_ranges]. *)
Definition range_of (w : SearchThread) : nat * (Z * Z) :=
  (name w, (start_page w, end_page w)).

(** ** Vocabulary of the properties beside the claims *)

(** The number of Ctrl-C that arrive in a run. *)
Definition interrupts (evs : list event) : nat :=
  length (List.filter
            (λ e, match e with
                  | EvMain _ interrupt => interrupt
                  | EvThread _ _ => false
                  end) evs).

(** [main]'s [counter] counts the Ctrl-C that have arrived, and [main] has
    left through [bye] only after two of them. *)
Definition counter_inv (n : nat) (s : State) : Prop :=
  match MAIN s with
  | MWait c | MJoin c => 0 ≤ c ≤ Z.of_nat n
  | MExited => (2 ≤ n)%nat
  | MStart | MFinished => True
  end.

(** What the part of [search] after the request can do to the state: it
    appends to [RESULTS], prints, and starts either no thread or the
    threads of [thread_ranges] for the whole of [range]. *)
Definition dispatched (q : string) (range : list nat) (s s' : State) : Prop :=
  PROXIES s' = PROXIES s ∧ NET s' = NET s
  ∧ OUTFILE s' = OUTFILE s ∧ MAIN s' = MAIN s
  ∧ (∃ R, RESULTS s' = RESULTS s ++ R)
  ∧ (THREADS s' = THREADS s
     ∨ ∃ qpt lp tcp,
         THREADS s' = THREADS s
                      ++ (thread_of_range q <$> thread_ranges qpt lp range tcp)).

(** A thread that has not come past its first [PROXIES.pop()]. *)
Definition stuck (w : SearchThread) : Prop :=
  at_ w = WStart ∨ at_ w = WCrashed.

Definition empty_pool_inv (R : list Result) (N : list Request) (s : State)
  : Prop :=
  PROXIES s = [] ∧ Forall stuck (THREADS s) ∧ RESULTS s = R ∧ NET s = N.

(** The proxy in the hands of a thread, if it holds one. *)
Definition in_hand (w : SearchThread) : list string :=
  if holds_proxy w then option_list (proxy w) else [].

(** The proxies in the hands of the threads. *)
Definition held_proxies (T : list SearchThread) : list string :=
  T ≫= in_hand.

(** The proxies of a state: those in the pool, then those in the hands of
    the threads. *)
Definition all_proxies (s : State) : list string :=
  PROXIES s ++ held_proxies (THREADS s).

(** Every request of a thread has gone through a proxy of [proxies]; the
    request of [search] has gone through none. *)
Definition via_proxies (proxies : list string) (r : Request) : Prop :=
  match req_by r with
  | None => req_proxy r = None
  | Some _ => ∃ p, req_proxy r = Some p ∧ p ∈ proxies
  end.

(** A response that makes the iteration fail at once. *)
Definition fails (o : fetched) : bool :=
  match o with
  | GetRaises => true
  | Response status_code _ => raise_for_status status_code
  end.

(** The number of proxies a thread whose requests all fail may still take
    from the pool. *)
Definition pops_left (w : SearchThread) : nat :=
  match at_ w with
  | WStart => 2
  | WSleep | WHead | WTry =>
      if proxy_fail_counter w <=? PROXY_FAIL_LIMIT then 1 else 0
  | _ => if proxy_fail_counter w <? PROXY_FAIL_LIMIT then 1 else 0
  end.

(** The pages the thread at index [i] has requested, in the order of its
    requests. *)
Definition pages_by (i : nat) (N : list Request) : list Z :=
  req_page <$> requests_by i N.

(** How the pages a thread has requested relate to where it stands: it has
    requested nothing before its start; afterwards it has requested every
    page from [start_page] up to, but not including, [counter], and no page
    after [counter], in increasing order; and if it has left its loop
    without its flag set, [counter] has reached [end_page]. *)
Definition walked (pages : list Z) (w : SearchThread) : Prop :=
  (at_ w = WStart → pages = [])
  ∧ (at_ w ≠ WStart →
     (∀ p, start_page w ≤ p < counter w → p ∈ pages)
     ∧ Forall (λ p, p ≤ counter w) pages)
  ∧ StronglySorted Z.le pages
  ∧ (kill_received w = false → at_ w = WRelease ∨ at_ w = WDone →
     end_page w ≤ counter w).

Definition walk_inv (s : State) : Prop :=
  ∀ i, match THREADS s !! i with
       | Some w => walked (pages_by i (NET s)) w
       | None => pages_by i (NET s) = []
       end.

(** The requests sent by [search] itself (not by a thread). *)
Definition search_requests (N : list Request) : list Request :=
  List.filter (λ r, bool_decide (req_by r = None)) N.

(** Before the call of [search] nothing has been sent and no thread
    exists; after it, [search] has sent its one request or none. *)
Definition once_inv (args : Args) (s : State) : Prop :=
  match MAIN s with
  | MStart => NET s = [] ∧ THREADS s = []
  | _ => search_requests (NET s) = []
         ∨ search_requests (NET s)
           = [first_request (keyword args) (default 1 (page args))]
  end.

(** ** Concrete inputs *)

(** A response body as the API documents it. *)
Definition page_body_dict (total current_page last_page : Z)
    (items : list (gmap string json)) : gmap string json :=
  <["total" := JNum total]>
    (<["current_page" := JNum current_page]>
    (<["last_page" := JNum last_page]>
    (<["data" := JArr (JObj <$> items)]> ∅))).

Definition hit (t : string) : gmap string json :=
  <["title" := JStr t]>
    (<["link" := JStr "http://example.onion"]>
    (<["description" := JStr "about"]> ∅)).

Definition two_hits : list (gmap string json) := [hit "first"; hit "second"].

Definition test_args : Args :=
  {| keyword := "test"; output := None; page := None |}.

(** A first response: page [cp] of [lp], with two hits. *)
Definition first_page (cp lp : Z) : fetched :=
  Response 200 (Some (JObj (page_body_dict 40 cp lp two_hits))).

Definition five_proxies : list string := ["p1"; "p2"; "p3"; "p4"; "p5"].

(** [n] steps of the thread at index [i], each fetch getting [o]. *)
Definition steps (i : nat) (o : fetched) (n : nat) : list event :=
  replicate n (EvThread i o).

(** A run over four pages in which nothing goes wrong: the dispatch, the
    seven steps of thread 0 (which fetches page 2), the three steps of each
    other thread, and the step of [main] that finds no thread alive. *)
Definition four_pages_threads : list event :=
  EvMain (first_page 1 4) false
    :: steps 0 (first_page 2 4) 7
    ++ steps 1 (first_page 4 4) 3 ++ steps 2 (first_page 4 4) 3
    ++ steps 3 (first_page 4 4) 3 ++ steps 4 (first_page 4 4) 3.

Definition four_pages_run : list event :=
  four_pages_threads ++ [EvMain GetRaises false].

Definition six_proxies : list string :=
  ["p1"; "p2"; "p3"; "p4"; "p5"; "p6"].

(** A run in which every thread takes its proxy, and thread 0 then fails
    ten times in a row (four steps an iteration) and comes to the rotation
    test a further time. *)
Definition rotation_run : list event :=
  EvMain (first_page 1 11) false
    :: steps 0 GetRaises 1 ++ steps 1 GetRaises 1 ++ steps 2 GetRaises 1
    ++ steps 3 GetRaises 1 ++ steps 4 GetRaises 1
    ++ steps 0 GetRaises (4 * 10)
    ++ steps 0 GetRaises 2.

(** A run in which Ctrl-C arrives twice while thread 0 is in
    [requests.get]. *)
Definition two_interrupts : list event :=
  EvMain (first_page 1 11) false
    :: steps 0 GetRaises 3
    ++ [EvMain GetRaises false; EvMain GetRaises true;
        EvMain GetRaises false; EvMain GetRaises true].

Definition forced_exit_run : list event :=
  two_interrupts ++ [EvMain GetRaises false].

(** A state in which thread 0 is in [requests.get] and Ctrl-C has arrived
    once, and the record of thread 0 in it. *)
Definition cancelled_state : State :=
  exec test_args
    (EvMain (first_page 1 11) false
       :: steps 0 GetRaises 3 ++ [EvMain GetRaises false; EvMain GetRaises true])
    (initial five_proxies).

Definition cancelled_thread : SearchThread :=
  {| name := 0; kill_received := true; query := "test";
     start_page := 2; end_page := 4; counter := 2;
     proxy_fail_counter := 0; proxy := Some "p5"; at_ := WFetch |}.

(** A thread in [requests.get]. *)
Definition fetching_thread : SearchThread :=
  {| name := 3; kill_received := false; query := "test";
     start_page := 8; end_page := 10; counter := 8;
     proxy_fail_counter := 4; proxy := Some "p2"; at_ := WFetch |}.

(** A body whose ["data"] holds [null] between two hits. *)
Definition bad_item_dict : gmap string json :=
  <["data" := JArr ((JObj <$> [hit "first"]) ++ JNull :: [JObj (hit "second")])]> ∅.

(** A body with ["total"] and ["data"], but without ["last_page"]. *)
Definition no_last_page_dict : gmap string json :=
  <["total" := JNum 40]> (<["data" := JArr (JObj <$> two_hits)]> ∅).

(** A body with ["total"] only. *)
Definition no_data_dict : gmap string json := <["total" := JNum 40]> ∅.

(** The state after the dispatch over eleven pages, with six proxies. *)
Definition dispatched_state : State :=
  exec test_args [EvMain (first_page 1 11) false] (initial six_proxies).

(** Thread 0 at the end of the run over four pages. *)
Definition finished_thread : SearchThread :=
  {| name := 0; kill_received := false; query := "test";
     start_page := 2; end_page := 3; counter := 3;
     proxy_fail_counter := 0; proxy := Some "p5"; at_ := WDone |}.

(** * Properties *)

(** ** The definitions on small inputs *)

Example ceil_div_values :
  ceil_div 0 5 = 0 ∧ ceil_div 3 5 = 1 ∧ ceil_div 10 5 = 2
  ∧ ceil_div 11 5 = 3 ∧ ceil_div (-3) 5 = 0 ∧ ceil_div (-7) 5 = -1.
Proof. repeat split. Qed.

Example list_pop_values :
  list_pop ["a"; "b"; "c"] = Some ("c", ["a"; "b"])
  ∧ list_pop (@nil string) = None.
Proof. split; reflexivity. Qed.

Example raise_for_status_values :
  raise_for_status 200 = false ∧ raise_for_status 302 = false
  ∧ raise_for_status 404 = true ∧ raise_for_status 429 = true
  ∧ raise_for_status 503 = true ∧ raise_for_status 600 = false.
Proof. repeat split. Qed.

Example thread_ranges_1_11 :
  thread_ranges (ceil_div (11 - 1) 5) 11 (seq 0 5) (1 + 1)
  = [(0%nat, (2, 4)); (1%nat, (5, 7)); (2%nat, (8, 10));
     (3%nat, (11, 11)); (4%nat, (12, 11))].
Proof. reflexivity. Qed.

Example append_results_stops_at_bad_item :
  append_results [JObj (hit "a"); JNum 3; JObj (hit "b")] []
  = ([Result_of_dict (hit "a")], Some AttributeError).
Proof. reflexivity. Qed.

Example search_spawns_five_threads :
  let s := search (first_page 1 4) (Some "test") (Some 1)
             (initial five_proxies) in
  ((λ w, (name w, (start_page w, end_page w))) <$> THREADS s)
    = [(0%nat, (2, 3)); (1%nat, (4, 4)); (2%nat, (5, 4));
       (3%nat, (5, 4)); (4%nat, (5, 4))]
  ∧ RESULTS s = Result_of_dict <$> two_hits
  ∧ NET s = [first_request "test" 1].
Proof. vm_compute. repeat split. Qed.

(** ** Auxiliary facts *)

Section Facts.
Context `{PyRuntime}.

Lemma not_429_after_raise_for_status status_code :
  raise_for_status status_code = false → int_is status_code 429 = false.
Proof.
  intros Hok. destruct (int_is status_code 429) eqn:His; [|done].
  apply int_is_sound in His. subst. discriminate.
Qed.

Lemma search_try_no_query o page s :
  search_try o None page s = (s, inl NoQueryException).
Proof. reflexivity. Qed.

Lemma search_try_empty_query o page s :
  search_try o (Some "") page s = (s, inl NoQueryException).
Proof. reflexivity. Qed.

Lemma length_nonempty (q : string) :
  q ≠ "" → (Z.of_nat (String.length q) <=? 0) = false.
Proof. destruct q; [done|]. intros _. apply Z.leb_gt. simpl. lia. Qed.

(** What [search] does once its arguments have passed the two tests and
    the response has passed the two status tests. *)
Lemma search_try_sent status_code body q page s :
  q ≠ "" → 0 < page → raise_for_status status_code = false →
  search_try (Response status_code body) (Some q) (Some page) s =
  (let! content := or_raise ValueError body in search_content q content)
    (send (first_request q page) s).
Proof.
  intros Hq Hpage Hst.
  unfold search_try; cbn [or_raise]. unfold bind at 1; cbn [ret].
  rewrite (length_nonempty _ Hq). unfold bind at 1; cbn [ret].
  replace (page <=? 0) with false by (symmetry; apply Z.leb_gt; lia).
  unfold bind at 1. cbn [modify]. rewrite Hst.
  rewrite (not_429_after_raise_for_status _ Hst). reflexivity.
Qed.

Lemma search_try_http_error status_code body q page s :
  q ≠ "" → 0 < page → raise_for_status status_code = true →
  search_try (Response status_code body) (Some q) (Some page) s =
  (send (first_request q page) s, inl HTTPError).
Proof.
  intros Hq Hpage Hst.
  unfold search_try; cbn [or_raise]. unfold bind at 1; cbn [ret].
  rewrite (length_nonempty _ Hq). unfold bind at 1; cbn [ret].
  replace (page <=? 0) with false by (symmetry; apply Z.leb_gt; lia).
  unfold bind at 1. cbn [modify]. rewrite Hst. reflexivity.
Qed.

End Facts.

(** ** Which exceptions can be raised *)

Section Raised.
Context `{PyRuntime}.

Lemma append_results_raises items R R' e :
  append_results items R = (R', Some e) → e = AttributeError.
Proof.
  revert R. induction items as [|r items IH]; intros R; simpl; [done|].
  destruct r; try (intros [= _ <-]; done). apply IH.
Qed.

Lemma py_int_raises v e : py_int v = inl e → e = TypeError ∨ e = ValueError.
Proof.
  destruct v; simpl; try (intros [= <-]; auto; fail); try done.
  destruct (int_of_str s); [done|]. intros [= <-]; auto.
Qed.

Lemma spawn_threads_raises q qpt last_page range tcp s s' e :
  spawn_threads q qpt last_page range tcp s = (s', inl e) → e = TypeError.
Proof.
  revert tcp s. induction range as [|i range IH]; intros tcp s; simpl; [done|].
  unfold bind at 1. destruct (py_num last_page) as [lp|]; simpl.
  - unfold bind at 1. simpl. unfold bind at 1. simpl. apply IH.
  - intros [= _ <-]. done.
Qed.

(** Case analysis on a block of statements, as far as its tests go. *)
Ltac py_cases :=
  repeat (case_match; simplify_eq;
          cbn -[spawn_threads append_results py_int py_iter] in * );
  repeat match goal with
       | H : append_results _ _ = (_, Some _) |- _ =>
           apply append_results_raises in H; subst
       | H : spawn_threads _ _ _ _ _ _ = (_, inl _) |- _ =>
           apply spawn_threads_raises in H; subst
       | H : py_int _ = inl _ |- _ =>
           apply py_int_raises in H as [-> | ->]
       end.

Lemma search_content_raises q content s s' e :
  search_content q content s = (s', inl e) → content_error e.
Proof.
  unfold search_content, content_error.
  unfold bind, or_raise, of_sum, modify, read, ret, raise.
  intros Hc. py_cases; auto.
Qed.

(** No call of [search] reaches [raise QuotaOverloadException]. *)
Lemma search_try_never_quota o q page s :
  (search_try o q page s).2 ≠ inl QuotaOverloadException.
Proof.
  unfold search_try.
  destruct q as [q|]; [|done]. cbn [or_raise]. unfold bind at 1. cbn [ret].
  destruct (Z.of_nat (String.length q) <=? 0); [done|].
  destruct page as [page|]; [|done]. cbn [or_raise]. unfold bind at 1.
  cbn [ret]. destruct (page <=? 0); [done|].
  unfold bind at 1. cbn [modify].
  destruct o as [|st body]; [done|].
  destruct (raise_for_status st) eqn:Hst; [done|].
  rewrite (not_429_after_raise_for_status _ Hst).
  unfold bind at 1. destruct body as [content|]; [|done]. cbn [or_raise ret].
  destruct (search_content q content _) as [s' [e|[]]] eqn:Hc; [|done].
  apply search_content_raises in Hc. simpl. intros [= ->].
  destruct Hc as [|[|[|]]]; done.
Qed.

End Raised.

(** ** The dispatcher: [search] *)

Section Dispatcher.
Context `{PyRuntime}.

(** C7, as amended.  A call of [search] without a query, or with an empty
    one, raises [NoQueryException]; a call with a non-empty query and
    without a page, or with a page below 1, raises [InvalidPageException].
    Either is caught by [search] itself, which prints one line and returns:
    no request is sent, [RESULTS] and [THREADS] are left as they were. *)
Theorem search_rejects_invalid_arguments o q page s :
  (q = None ∨ q = Some "" →
     search_try o q page s = (s, inl NoQueryException)
     ∧ search o q page s = print L_no_query s
     ∧ NET (search o q page s) = NET s
     ∧ RESULTS (search o q page s) = RESULTS s
     ∧ THREADS (search o q page s) = THREADS s)
  ∧ (∀ q', q = Some q' → q' ≠ "" →
     page = None ∨ (∃ p, page = Some p ∧ p < 1) →
     search_try o q page s = (s, inl InvalidPageException)
     ∧ search o q page s = print L_invalid_page s
     ∧ NET (search o q page s) = NET s
     ∧ RESULTS (search o q page s) = RESULTS s
     ∧ THREADS (search o q page s) = THREADS s).
Proof.
  split.
  - intros [-> | ->]; unfold search;
      [rewrite search_try_no_query | rewrite search_try_empty_query]; done.
  - intros q' -> Hq Hpage.
    assert (search_try o (Some q') page s = (s, inl InvalidPageException))
      as Htry.
    { unfold search_try; cbn [or_raise]. unfold bind at 1; cbn [ret].
      rewrite (length_nonempty _ Hq).
      destruct Hpage as [-> | (p & -> & Hp)]; [done|].
      cbn [or_raise]. unfold bind at 1; cbn [ret].
      replace (p <=? 0) with true by (symmetry; apply Z.leb_le; lia). done. }
    unfold search. rewrite Htry. done.
Qed.

(** C10, for a body that is a JSON object.  When the first response passes
    the status tests and its body is a JSON object without the key
    ["total"], [search] raises nothing, prints nothing, appends nothing to
    [RESULTS] and starts no thread: the request it has sent is the only
    trace of the call. *)
Theorem search_without_total_is_silent status_code d q page s :
  q ≠ "" → 0 < page → raise_for_status status_code = false →
  d !! "total" = None →
  let s' := search (Response status_code (Some (JObj d))) (Some q)
              (Some page) s in
  search_try (Response status_code (Some (JObj d))) (Some q) (Some page) s
    = (send (first_request q page) s, inr tt)
  ∧ s' = send (first_request q page) s
  ∧ RESULTS s' = RESULTS s ∧ THREADS s' = THREADS s ∧ STDOUT s' = STDOUT s.
Proof.
  intros Hq Hpage Hst Htotal s'.
  assert (search_try (Response status_code (Some (JObj d))) (Some q)
            (Some page) s = (send (first_request q page) s, inr tt)) as Htry.
  { rewrite search_try_sent by done. cbn [or_raise]. unfold bind at 1.
    cbn [ret]. unfold search_content. cbn [py_get]. rewrite Htotal.
    reflexivity. }
  subst s'. unfold search. rewrite Htry. done.
Qed.

(** C6, as the code has it.  A first response with status 429 is turned
    into [HTTPError] by [raise_for_status], before the test for 429 is
    reached: [search] prints the line of its [HTTPError] clause, not the
    line of its [QuotaOverloadException] clause.  No thread is started and
    nothing is appended to [RESULTS]. *)
Theorem first_fetch_429_is_http_error body q page s :
  q ≠ "" → 0 < page →
  let s' := search (Response 429 body) (Some q) (Some page) s in
  search_try (Response 429 body) (Some q) (Some page) s
    = (send (first_request q page) s, inl HTTPError)
  ∧ s' = print L_http_error (send (first_request q page) s)
  ∧ RESULTS s' = RESULTS s ∧ THREADS s' = THREADS s
  ∧ STDOUT s' = STDOUT s ++ [L_http_error].
Proof.
  intros Hq Hpage s'. subst s'. unfold search.
  rewrite search_try_http_error by done. done.
Qed.

End Dispatcher.

(** ** One iteration of a thread *)

Section Iteration.
Context `{PyRuntime}.

Lemma append_results_dicts (items : list (gmap string json)) R :
  append_results (JObj <$> items) R = (R ++ (Result_of_dict <$> items), None).
Proof.
  revert R. induction items as [|r items IH]; intros R; simpl.
  - by rewrite app_nil_r.
  - rewrite IH, <- app_assoc. done.
Qed.

(** No iteration reaches the [except QuotaOverloadException] clause. *)
Lemma run_try_fetch_never_quota i o ws :
  (run_try_fetch i o ws).2 ≠ inl QuotaOverloadException.
Proof.
  unfold run_try_fetch, bind, or_raise, on_state, on_thread, modify, read,
    ret, raise.
  destruct o as [|st body]; [done|]. simpl.
  destruct (raise_for_status st) eqn:Hst; [done|].
  rewrite (not_429_after_raise_for_status _ Hst).
  destruct body as [content|]; [|done].
  destruct (py_get content "data") as [data|]; [|done].
  destruct (py_iter data) as [items|]; [|done].
  destruct (append_results items _) as [R [x|]] eqn:Happ; [|done].
  apply append_results_raises in Happ as ->. done.
Qed.

(** C4, as the code has it.  An iteration whose response has status 429
    ends in the [except HTTPError] clause, because [raise_for_status] raises
    before the test for 429: the thread prints the HTTP error line, adds
    one to [proxy_fail_counter], leaves [counter] as it is and goes to
    [time.sleep(1)]. *)
Theorem thread_429_counts_as_failure i body w s :
  at_ w = WFetch →
  let '(w', s') := run_step i (Response 429 body) w s in
  w' = goto WSleep (set_fail (proxy_fail_counter w + 1) w)
  ∧ s' = print (T_http_error (name w)) (send (thread_request i w) s)
  ∧ proxy_fail_counter w' = proxy_fail_counter w + 1
  ∧ counter w' = counter w.
Proof. intros Hat. unfold run_step. rewrite Hat. done. Qed.


End Iteration.

(** ** Runs *)

Section Runs.
Context `{PyRuntime}.

Lemma append_results_extends items R R' e :
  append_results items R = (R', e) → ∃ R'', R' = R ++ R''.
Proof.
  revert R. induction items as [|r items IH]; intros R; simpl.
  - intros [= <- _]. exists []. by rewrite app_nil_r.
  - destruct r; try (intros [= <- _]; exists []; by rewrite app_nil_r).
    intros (R'' & ->)%IH. eexists. by rewrite <- app_assoc.
Qed.

Lemma set_RESULTS_same s : set_RESULTS (RESULTS s) s = s.
Proof. by destruct s. Qed.

(** [grows] is a preorder that the updates of [search] respect. *)
Lemma grows_refl P s : grows P s s.
Proof.
  split; try done; exists []; by rewrite app_nil_r.
Qed.

Lemma grows_print P l s s' : grows P s s' → grows P s (print l s').
Proof. intros []. by split. Qed.

Lemma grows_send P r s s' :
  req_by r = None → grows P s s' → grows P s (send r s').
Proof.
  intros Hr [? ? ? ? ? (N & HN & HNone)]. split; try done.
  exists (N ++ [r]). simpl. rewrite HN, <- app_assoc. split; [done|].
  apply Forall_app. auto.
Qed.

Lemma grows_append_results P items R e s s' :
  append_results items (RESULTS s') = (R, e) →
  grows P s s' → grows P s (set_RESULTS R s').
Proof.
  intros (R'' & ->)%append_results_extends [? ? ? ? (R0 & HR) ?].
  split; try done. exists (R0 ++ R''). simpl. by rewrite HR, <- app_assoc.
Qed.

Lemma grows_spawn_threads (P : SearchThread → Prop) q qpt last_page range
    tcp s0 s s' r :
  (∀ i first last,
     (∀ lp, py_num last_page = Some lp → last ≤ lp) →
     P (SearchThread_init i q first last)) →
  spawn_threads q qpt last_page range tcp s = (s', r) →
  grows P s0 s → grows P s0 s'.
Proof.
  intros HP. revert tcp s. induction range as [|i range IH]; intros tcp s.
  - intros [= <- _]. done.
  - simpl. unfold bind at 1.
    destruct (py_num last_page) as [lp|] eqn:Hlp; simpl;
      [|intros [= <- _]; done].
    unfold bind at 1. simpl. unfold bind at 1. simpl.
    intros Hrest Hs. eapply IH; [exact Hrest|].
    destruct Hs as [? ? ? (T & HT & HPT) ? ?]. split; try done.
    eexists (T ++ [_]). simpl. rewrite HT, <- app_assoc. split; [done|].
    apply Forall_app. split; [done|]. apply Forall_singleton. apply HP.
    intros lp' [= <-]. destruct (_ >? _) eqn:Hgt; [done|].
    rewrite Z.gtb_ltb in Hgt. by apply Z.ltb_ge in Hgt.
Qed.

Lemma search_content_grows o st d q s s' r :
  o = Response st (Some (JObj d)) →
  search_content q (JObj d) s = (s', r) → grows (spawned_by o) s s'.
Proof.
  intros Ho. unfold search_content.
  unfold bind, or_raise, of_sum, modify, read, ret, raise.
  intros Hc.
  repeat (case_match; simplify_eq;
          cbn -[spawn_threads append_results py_int py_iter] in * );
    repeat first
      [ apply grows_refl
      | apply grows_print
      | eapply grows_append_results; [eassumption|]
      | eapply grows_spawn_threads; [|eassumption|] ];
    try (intros i first last Hlast; exists i, q, first, last;
         split; [done|]; intros st' d' lp [= -> ->] Hlp; apply Hlast;
         by rewrite Hlp).
Qed.

(** What [search] leaves behind. *)
Lemma search_grows o q page s : grows (spawned_by o) s (search o q page s).
Proof.
  unfold search. destruct (search_try o q page s) as [s' r] eqn:Hs.
  assert (grows (spawned_by o) s s') as Hg.
  { revert Hs. unfold search_try.
    destruct q as [q|]; [|intros [= <- _]; apply grows_refl].
    cbn [or_raise]. unfold bind at 1. cbn [ret].
    destruct (Z.of_nat (String.length q) <=? 0);
      [intros [= <- _]; apply grows_refl|].
    destruct page as [page|]; [|intros [= <- _]; apply grows_refl].
    cbn [or_raise]. unfold bind at 1. cbn [ret].
    destruct (page <=? 0); [intros [= <- _]; apply grows_refl|].
    unfold bind at 1. cbn [modify].
    assert (grows (spawned_by o) s (send (first_request q page) s))
      as Hsent by (apply grows_send; [done|apply grows_refl]).
    destruct o as [|st body]; [intros [= <- _]; done|].
    destruct (raise_for_status st); [intros [= <- _]; done|].
    destruct (int_is st 429); [intros [= <- _]; done|].
    destruct body as [content|]; [|intros [= <- _]; done].
    cbn [or_raise]. unfold bind at 1. cbn [ret].
    destruct content as [| | | | |d];
      try (unfold search_content; simpl; intros [= <- _]; done).
    intros Hc. eapply search_content_grows in Hc; [|done].
    destruct Hsent as [? ? ? (T0 & HT0 & _) (R0 & HR0) (N0 & HN0 & HF0)],
      Hc as [? ? ? (T & HT & HPT) (R & HR) (N & HN & HF)].
    split; try congruence.
    - exists T. split; [|done]. rewrite HT. done.
    - exists (R0 ++ R). rewrite HR, HR0. by rewrite app_assoc.
    - exists (N0 ++ N). rewrite HN, HN0, app_assoc. split; [done|].
      by apply Forall_app. }
  destruct r as [[]|[]]; try done; by apply grows_print.
Qed.

(** Every step [run_step] takes is a step of [run_rel]. *)
Lemma run_step_rel i o w s :
  run_rel i w s (run_step i o w s).1 (run_step i o w s).2.
Proof.
  unfold run_step. destruct (at_ w) eqn:Hat.
  - unfold take_proxy, bind, or_raise, on_state, on_thread, modify, read,
      ret, raise. simpl.
    destruct (list_pop (PROXIES s)) as [[p P]|] eqn:Hpop; simpl.
    + by apply rel_start_ok.
    + by apply rel_start_crash.
  - destruct (kill_received w) eqn:Hkill; simpl.
    + apply rel_head_exit; auto.
    + destruct (counter w <? end_page w) eqn:Hlt; simpl.
      * apply rel_head_enter; auto. by apply Z.ltb_lt.
      * apply rel_head_exit; auto. right. by apply Z.ltb_ge.
  - unfold run_try_rotate, take_proxy, bind, or_raise, on_state, on_thread,
      modify, read, ret, raise. simpl.
    destruct (proxy_fail_counter w =? PROXY_FAIL_LIMIT) eqn:Hlim; simpl.
    + apply Z.eqb_eq in Hlim.
      destruct (list_pop (PROXIES s)) as [[p P]|] eqn:Hpop; simpl.
      * by apply rel_try_rotate.
      * by apply rel_try_empty.
    + apply rel_try_pass; auto. by apply Z.eqb_neq.
  - pose proof (run_try_fetch_never_quota i o (w, s)) as Hq. revert Hq.
    unfold run_try_fetch, bind, or_raise, on_state, on_thread, modify, read,
      ret, raise. simpl.
    assert (∀ l, run_rel i w s
              (goto WSleep (set_fail (proxy_fail_counter w + 1) w))
              (print l (send (thread_request i w) s))) as Hfault.
    { intros l.
      rewrite <- (set_RESULTS_same (send (thread_request i w) s)). simpl.
      rewrite <- (app_nil_r (RESULTS s)) at 1. by apply rel_fetch_fault. }
    destruct o as [|st body]; simpl; [intros _; apply Hfault|].
    destruct (raise_for_status st); simpl; [intros _; apply Hfault|].
    destruct (int_is st 429); simpl; [done|].
    destruct body as [content|]; simpl; [|intros _; apply Hfault].
    destruct (py_get content "data") as [data|]; simpl;
      [|intros _; apply Hfault].
    destruct (py_iter data) as [items|]; simpl; [|intros _; apply Hfault].
    destruct (append_results items (RESULTS s)) as [R e] eqn:Happ.
    destruct (append_results_extends _ _ _ _ Happ) as (R'' & ->).
    destruct e as [x|]; simpl.
    + apply append_results_raises in Happ as ->. intros _.
      by apply rel_fetch_fault.
    + intros _. by apply rel_fetch_ok.
  - by apply rel_sleep.
  - by apply rel_release.
  - apply rel_stutter. unfold is_alive. simpl. by rewrite Hat.
  - apply rel_stutter. unfold is_alive. simpl. by rewrite Hat.
Qed.

(** What a step of a thread leaves as it is. *)
Lemma run_rel_frame i w s w' s' :
  run_rel i w s w' s' →
  THREADS s' = THREADS s ∧ OUTFILE s' = OUTFILE s ∧ MAIN s' = MAIN s
  ∧ name w' = name w ∧ query w' = query w
  ∧ start_page w' = start_page w ∧ end_page w' = end_page w
  ∧ kill_received w' = kill_received w.
Proof. by destruct 1. Qed.

Lemma thread_step_rel i o s w :
  THREADS s !! i = Some w →
  ∃ w' s', run_rel i w s w' s'
           ∧ thread_step i o s = set_THREADS (<[i := w']> (THREADS s)) s'.
Proof.
  intros Hw. unfold thread_step. rewrite Hw.
  pose proof (run_step_rel i o w s) as Hrel.
  destruct (run_step i o w s) as [w' s']. simpl in Hrel.
  exists w', s'. split; [done|].
  by destruct (run_rel_frame _ _ _ _ _ Hrel) as (-> & _).
Qed.

Lemma thread_step_absent i o s :
  THREADS s !! i = None → thread_step i o s = s.
Proof. intros Hw. unfold thread_step. by rewrite Hw. Qed.

Lemma set_THREADS_same s : set_THREADS (THREADS s) s = s.
Proof. by destruct s. Qed.

(** A thread that has terminated takes no further step. *)
Lemma thread_step_terminated i o s w :
  THREADS s !! i = Some w → is_alive w = false → thread_step i o s = s.
Proof.
  intros Hw Hdead. unfold thread_step, run_step. rewrite Hw.
  unfold is_alive in Hdead.
  destruct (at_ w); try done; rewrite list_insert_id by done;
    apply set_THREADS_same.
Qed.

Lemma has_live_threads_false s i w :
  has_live_threads s = false → THREADS s !! i = Some w → is_alive w = false.
Proof.
  unfold has_live_threads. intros Hnone Hw.
  destruct (is_alive w) eqn:Halive; [|done].
  assert (existsb is_alive (THREADS s) = true) as Hex; [|congruence].
  apply existsb_exists. exists w. split; [|done].
  apply list_elem_of_In. by eapply list_elem_of_lookup_2.
Qed.

(** Once no thread is alive, no thread step changes the state. *)
Lemma thread_step_all_terminated i o s :
  has_live_threads s = false → thread_step i o s = s.
Proof.
  intros Hnone. destruct (THREADS s !! i) as [w|] eqn:Hw.
  - eapply thread_step_terminated; [done|].
    by eapply has_live_threads_false.
  - by apply thread_step_absent.
Qed.

Lemma thread_step_main i o s :
  MAIN (thread_step i o s) = MAIN s
  ∧ OUTFILE (thread_step i o s) = OUTFILE s.
Proof.
  destruct (THREADS s !! i) as [w|] eqn:Hw.
  - destruct (thread_step_rel i o s w Hw) as (w' & s' & Hrel & ->).
    by destruct (run_rel_frame _ _ _ _ _ Hrel) as (_ & ? & ? & _).
  - by rewrite thread_step_absent.
Qed.

(** *** The export *)

Lemma step_export_inv args e s :
  export_inv args s → export_inv args (step args e s).
Proof.
  unfold export_inv. intros Hinv. destruct e as [o interrupt|i o]; simpl.
  - unfold main_step. destruct (MAIN s) eqn:Hmain; simpl.
    + destruct (search_grows o (Some (keyword args))
                  (Some (default 1 (page args))) s) as [_ Hout _ _ _ _].
      by rewrite Hout.
    + destruct (has_live_threads s) eqn:Hlive.
      * by destruct (c =? 2).
      * simpl. done.
    + by destruct interrupt.
    + by rewrite Hmain.
    + by rewrite Hmain.
  - destruct (MAIN s) eqn:Hmain.
    5: { destruct (thread_step_main i o s) as [-> ->]. by rewrite Hmain. }
    4: { destruct Hinv as [Hout Hlive].
         rewrite thread_step_all_terminated by done. by rewrite Hmain. }
    all: destruct (thread_step_main i o s) as [-> ->]; by rewrite Hmain.
Qed.

Lemma exec_export_inv args evs s :
  export_inv args s → export_inv args (exec args evs s).
Proof.
  revert s. induction evs as [|e evs IH]; intros s Hinv; [done|].
  simpl. apply IH. by apply step_export_inv.
Qed.

(** C5, as amended.  In every state [s] a run can reach:
    - when [main] is at the test of its wait loop and no thread is alive,
      its next step exports exactly the [RESULTS] of [s];
    - when [main] has come to its end through [export], the output file
      holds exactly the [RESULTS] of [s], and no thread is alive that could
      append to them;
    - in every other state no file has been written;
    - when [main] is at the test of its wait loop with [counter = 2] and a
      thread is alive, its next step is the exit through [bye], and no
      file has been or will be written by it. *)
Theorem export_only_when_threads_have_finished args proxies evs :
  let s := exec args evs (initial proxies) in
  let path := default "results.json" (output args) in
  (∀ c o interrupt,
     MAIN s = MWait c → has_live_threads s = false →
     let s' := step args (EvMain o interrupt) s in
     MAIN s' = MFinished
     ∧ OUTFILE s' = Some (path, export_doc (RESULTS s))
     ∧ RESULTS s' = RESULTS s)
  ∧ (MAIN s = MFinished →
     OUTFILE s = Some (path, export_doc (RESULTS s))
     ∧ has_live_threads s = false)
  ∧ (MAIN s ≠ MFinished → OUTFILE s = None)
  ∧ (∀ o interrupt,
       MAIN s = MWait 2 → has_live_threads s = true →
       let s' := step args (EvMain o interrupt) s in
       MAIN s' = MExited ∧ OUTFILE s' = None).
Proof.
  intros s path.
  assert (export_inv args s) as Hinv
    by (by apply (exec_export_inv args evs (initial proxies))).
  unfold export_inv in Hinv. split_and!.
  - intros c o interrupt Hmain Hnone. simpl. unfold main_step.
    by rewrite Hmain, Hnone.
  - intros Hmain. by rewrite Hmain in Hinv.
  - intros Hmain. by destruct (MAIN s).
  - intros o interrupt Hmain Hlive. simpl. unfold main_step.
    rewrite Hmain, Hlive. simpl. by rewrite Hmain in Hinv.
Qed.

(** *** What a step does to one thread *)

Lemma run_rel_NET i w s w' s' :
  run_rel i w s w' s' →
  NET s' = NET s
  ∨ (at_ w = WFetch ∧ at_ w' = WSleep
     ∧ NET s' = NET s ++ [thread_request i w]).
Proof. destruct 1; auto. Qed.

Lemma requests_by_app i N N' :
  requests_by i (N ++ N') = requests_by i N ++ requests_by i N'.
Proof. apply List.filter_app. Qed.

Lemma requests_by_own i w :
  requests_by i [thread_request i w] = [thread_request i w].
Proof. unfold requests_by. simpl. by rewrite bool_decide_eq_true_2. Qed.

Lemma requests_by_other i j w :
  j ≠ i → requests_by i [thread_request j w] = [].
Proof.
  intros Hne. unfold requests_by. simpl.
  rewrite bool_decide_eq_false_2; [done|]. by intros [= ->].
Qed.

Lemma requests_by_dispatcher i N :
  Forall (λ r, req_by r = None) N → requests_by i N = [].
Proof.
  induction 1 as [|r N Hr _ IH]; [done|]. unfold requests_by in *. simpl.
  rewrite bool_decide_eq_false_2; [done|]. by rewrite Hr.
Qed.

(** A step is either a step of the thread at index [i], or it leaves that
    thread where it is, sets at most its flag, and sends no request in its
    name. *)
Lemma step_thread args e s i w :
  THREADS s !! i = Some w →
  (∃ o w' s',
     e = EvThread i o ∧ run_rel i w s w' s'
     ∧ step args e s = set_THREADS (<[i := w']> (THREADS s)) s'
     ∧ THREADS (step args e s) !! i = Some w')
  ∨ ((∀ o, e ≠ EvThread i o)
     ∧ (∃ w2, THREADS (step args e s) !! i = Some w2
              ∧ (w2 = w ∨ w2 = set_kill true w))
     ∧ requests_by i (NET (step args e s)) = requests_by i (NET s)).
Proof.
  intros Hw. destruct e as [o interrupt|j o].
  - right. split; [done|]. simpl. unfold main_step.
    destruct (MAIN s) eqn:Hmain.
    + destruct (search_grows o (Some (keyword args))
                  (Some (default 1 (page args))) s)
        as [_ _ _ (T & HT & _) _ (N & HN & HNone)].
      simpl. rewrite HT, HN. split.
      * exists w. split; [|by left]. by apply lookup_app_l_Some.
      * rewrite requests_by_app, (requests_by_dispatcher _ _ HNone).
        by rewrite app_nil_r.
    + destruct (has_live_threads s); [destruct (c =? 2)|]; simpl; eauto.
    + destruct interrupt; simpl; [|eauto]. split; [|done].
      exists (set_kill true w). split; [|by right].
      by rewrite list_lookup_fmap, Hw.
    + eauto.
    + eauto.
  - destruct (decide (j = i)) as [->|Hne].
    + left. destruct (thread_step_rel i o s w Hw) as (w' & s' & Hrel & Heq).
      exists o, w', s'. simpl. rewrite Heq. split_and!; try done. simpl.
      apply list_lookup_insert_eq. by eapply lookup_lt_Some.
    + right. split; [by intros o' [= ->]|]. simpl.
      destruct (THREADS s !! j) as [wj|] eqn:Hwj.
      * destruct (thread_step_rel j o s wj Hwj) as (w' & s' & Hrel & ->).
        simpl. rewrite list_lookup_insert_ne by done. split; [eauto|].
        destruct (run_rel_NET _ _ _ _ _ Hrel) as [-> | (_ & _ & ->)];
          [done|].
        rewrite requests_by_app, requests_by_other by done.
        by rewrite app_nil_r.
      * rewrite thread_step_absent by done. eauto.
Qed.

Lemma exec_cons args e evs s :
  exec args (e :: evs) s = exec args evs (step args e s).
Proof. done. Qed.

Lemma exec_snoc args evs e s :
  exec args (evs ++ [e]) s = step args e (exec args evs s).
Proof. unfold exec. by rewrite fold_left_app. Qed.

(** *** Cancellation *)

Lemma run_rel_cancelled i w s w' s' :
  run_rel i w s w' s' → kill_received w = true →
  kill_received w' = true
  ∧ (steps_left w' ≤ steps_left w - 1)%nat
  ∧ (length (requests_by i (NET s')) + fetches_left w'
     ≤ length (requests_by i (NET s)) + fetches_left w)%nat.
Proof.
  destruct 1; intros Hkill; unfold steps_left, fetches_left; simpl;
    repeat match goal with H : at_ _ = _ |- _ => rewrite H end;
    try rewrite requests_by_app, requests_by_own, length_app; simpl;
    try (split_and!; [done | lia | lia]); try congruence.
  unfold is_alive in *. destruct (at_ w); try done; split_and!; done || lia.
Qed.

Lemma exec_cancelled args i evs : ∀ s w n k,
  THREADS s !! i = Some w → kill_received w = true →
  (steps_left w ≤ n)%nat →
  (length (requests_by i (NET s)) + fetches_left w ≤ k)%nat →
  ∃ w', THREADS (exec args evs s) !! i = Some w'
        ∧ kill_received w' = true
        ∧ (steps_left w' ≤ n - steps_of i evs)%nat
        ∧ (length (requests_by i (NET (exec args evs s))) + fetches_left w'
           ≤ k)%nat.
Proof.
  induction evs as [|e evs IH]; intros s w n k Hw Hkill Hn Hk.
  { exists w. unfold steps_of. simpl. split_and!; try done. lia. }
  rewrite exec_cons.
  destruct (step_thread args e s i w Hw)
    as [(o & w' & s' & -> & Hrel & Heq & Hw')
       |(Hne & (w2 & Hw2 & Hsame) & Hreq)].
  - destruct (run_rel_cancelled _ _ _ _ _ Hrel Hkill) as (Hkill' & Hn' & Hk').
    assert (NET (step args (EvThread i o) s) = NET s') as HNET
      by (by rewrite Heq).
    destruct (IH _ w' (n - 1)%nat k Hw' Hkill') as (w'' & ? & ? & ? & ?);
      [lia | rewrite HNET; lia |].
    exists w''. split_and!; try done.
    unfold steps_of in *. simpl. rewrite bool_decide_eq_true_2 by done.
    simpl. lia.
  - assert (kill_received w2 = true ∧ steps_left w2 = steps_left w
            ∧ fetches_left w2 = fetches_left w) as (Hkill2 & Hs2 & Hf2)
      by (destruct Hsame as [-> | ->]; done).
    destruct (IH _ w2 n k Hw2 Hkill2) as (w'' & ? & ? & ? & ?);
      [lia | rewrite Hreq; lia |].
    exists w''. split_and!; try done.
    assert (steps_of i (e :: evs) = steps_of i evs) as ->; [|done].
    unfold steps_of. simpl. destruct e as [|j o]; [done|].
    rewrite bool_decide_eq_false_2; [done|]. intros ->. by apply (Hne o).
Qed.

(** *** Release *)

Lemma run_rel_proxy_bound i w s w' s' :
  run_rel i w s w' s' → proxy_bound w → proxy_bound w'.
Proof.
  unfold proxy_bound, holds_proxy.
  destruct 1; simpl; intros Hb; try done;
    repeat match goal with H : at_ _ = _ |- _ => rewrite H in Hb end; auto.
Qed.

(** A thread that returns from [run] has appended the proxy it held to
    [PROXIES] in the step before. *)
Lemma thread_releases_before_it_returns args i evs : ∀ s w w',
  THREADS s !! i = Some w → proxy_bound w → at_ w ≠ WDone →
  THREADS (exec args evs s) !! i = Some w' → at_ w' = WDone →
  ∃ evs1 o evs2 w1 p,
    evs = evs1 ++ EvThread i o :: evs2
    ∧ THREADS (exec args evs1 s) !! i = Some w1
    ∧ at_ w1 = WRelease ∧ proxy w1 = Some p
    ∧ PROXIES (exec args (evs1 ++ [EvThread i o]) s)
      = PROXIES (exec args evs1 s) ++ [p].
Proof.
  induction evs as [|e evs IH]; intros s w w' Hw Hb Hat Hw' Hdone.
  { simpl in Hw'. congruence. }
  rewrite exec_cons in Hw'.
  assert (∃ w2, THREADS (step args e s) !! i = Some w2 ∧ proxy_bound w2
                ∧ (at_ w2 = WDone →
                   ∃ o p, e = EvThread i o ∧ at_ w = WRelease
                          ∧ proxy w = Some p
                          ∧ PROXIES (step args e s) = PROXIES s ++ [p]))
    as (w2 & Hw2 & Hb2 & Hrel2).
  { destruct (step_thread args e s i w Hw)
      as [(o & w2 & s' & -> & Hrel & Heq & Hw2)
         |(Hne & (w2 & Hw2 & Hsame) & Hreq)].
    - exists w2. split_and!; [done|by eapply run_rel_proxy_bound|].
      rewrite Heq. destruct Hrel as [| | | | | | | | | |Hrelease|];
        simpl; try done.
      intros _. destruct Hb as [p Hp].
      { unfold holds_proxy. by rewrite Hrelease. }
      exists o, p. rewrite Hp. done.
    - exists w2. split_and!; [done| |];
        destruct Hsame as [-> | ->]; done. }
  destruct (decide (at_ w2 = WDone)) as [Hd|Hnd].
  - destruct (Hrel2 Hd) as (o & p & -> & Hrel & Hp & HP).
    exists [], o, evs, w, p. done.
  - destruct (IH _ w2 w' Hw2 Hb2 Hnd Hw' Hdone)
      as (evs1 & o & evs2 & w1 & p & -> & ? & ? & ? & ?).
    exists (e :: evs1), o, evs2, w1, p. done.
Qed.

(** A property of one thread that its own steps and Ctrl-C keep holds of
    it throughout a run. *)
Lemma exec_thread_invariant (P : SearchThread → Prop) args i :
  (∀ w s w' s', run_rel i w s w' s' → P w → P w') →
  (∀ w, P w → P (set_kill true w)) →
  ∀ evs s w, THREADS s !! i = Some w → P w →
             ∃ w', THREADS (exec args evs s) !! i = Some w' ∧ P w'.
Proof.
  intros Hrun Hset. induction evs as [|e evs IH]; intros s w Hw HP.
  { by exists w. }
  rewrite exec_cons.
  destruct (step_thread args e s i w Hw)
    as [(o & w2 & s' & -> & Hrel & _ & Hw2)|(_ & (w2 & Hw2 & Hsame) & _)].
  - apply (IH _ w2 Hw2). by eapply Hrun.
  - apply (IH _ w2 Hw2). destruct Hsame as [-> | ->]; [done|by apply Hset].
Qed.

(** A thread that holds a proxy does not end without having returned from
    [run]: the only way out of the states in which it holds one leads
    through [PROXIES.append(proxy)]. *)
Lemma run_rel_holding i w s w' s' :
  run_rel i w s w' s' →
  holds_proxy w = true ∨ at_ w = WDone →
  holds_proxy w' = true ∨ at_ w' = WDone.
Proof.
  unfold holds_proxy.
  destruct 1; simpl; intros Hh; auto;
    repeat match goal with H : at_ _ = _ |- _ => rewrite H in Hh end;
    by destruct Hh.
Qed.

(** With the flag set, a thread that is not about to rotate keeps its
    proxy: it never comes back to the rotation test. *)
Lemma run_rel_keeps_proxy i w s w' s' :
  run_rel i w s w' s' →
  kill_received w = true →
  (at_ w = WTry → proxy_fail_counter w ≠ PROXY_FAIL_LIMIT) →
  holds_proxy w = true →
  kill_received w' = true
  ∧ (at_ w' = WTry → proxy_fail_counter w' ≠ PROXY_FAIL_LIMIT)
  ∧ proxy w' = proxy w.
Proof.
  unfold holds_proxy.
  destruct 1; simpl; intros Hkill Htry Hh;
    repeat match goal with H : at_ _ = _ |- _ => rewrite H in * end;
    try done; try congruence.
  by destruct (Htry eq_refl).
Qed.

(** C9.  Let the flag [kill_received] of a thread be set.  Then, however
    the run goes on: the flag stays set; the thread sends at most one more
    request; after five steps of its own, at the latest, it is no longer
    alive, and if it held a proxy when the flag was set it has returned
    from [run] (it has not ended on an exception); and when it returns
    from [run], the step before its return has appended the proxy it held
    to [PROXIES], which is the proxy it holds now unless it stands at the
    rotation test with [proxy_fail_counter] at the limit. *)
Theorem cancelled_thread_stops args s i w evs :
  THREADS s !! i = Some w → kill_received w = true → proxy_bound w →
  ∃ w', THREADS (exec args evs s) !! i = Some w'
    ∧ kill_received w' = true
    ∧ (length (requests_by i (NET (exec args evs s)))
       ≤ length (requests_by i (NET s)) + 1)%nat
    ∧ ((5 ≤ steps_of i evs)%nat → is_alive w' = false)
    ∧ (holds_proxy w = true → (5 ≤ steps_of i evs)%nat → at_ w' = WDone)
    ∧ (at_ w ≠ WDone → at_ w' = WDone →
       ∃ evs1 o evs2 w1 p,
         evs = evs1 ++ EvThread i o :: evs2
         ∧ THREADS (exec args evs1 s) !! i = Some w1
         ∧ at_ w1 = WRelease ∧ proxy w1 = Some p
         ∧ PROXIES (exec args (evs1 ++ [EvThread i o]) s)
           = PROXIES (exec args evs1 s) ++ [p]
         ∧ (holds_proxy w = true →
            (at_ w = WTry → proxy_fail_counter w ≠ PROXY_FAIL_LIMIT) →
            proxy w = Some p)).
Proof.
  intros Hw Hkill Hb.
  destruct (exec_cancelled args i evs s w 5%nat
              (length (requests_by i (NET s)) + 1)%nat Hw Hkill)
    as (w' & Hw' & Hkill' & Hsteps & Hreq).
  { unfold steps_left. destruct (at_ w); lia. }
  { unfold fetches_left. destruct (at_ w); lia. }
  assert ((5 ≤ steps_of i evs)%nat → at_ w' = WDone ∨ at_ w' = WCrashed)
    as Hend.
  { intros Hfive. assert (steps_left w' = 0%nat) as Hzero by lia.
    unfold steps_left in Hzero. destruct (at_ w'); auto; lia. }
  exists w'. split_and!; try done.
  - lia.
  - intros Hfive. unfold is_alive. by destruct (Hend Hfive) as [-> | ->].
  - intros Hholds Hfive.
    destruct (exec_thread_invariant
                (λ w, holds_proxy w = true ∨ at_ w = WDone) args i
                (run_rel_holding i) ltac:(done) evs s w Hw (or_introl Hholds))
      as (w2 & Hw2 & Hh).
    rewrite Hw' in Hw2. injection Hw2 as <-.
    destruct (Hend Hfive) as [Hd|Hc]; [done|].
    unfold holds_proxy in Hh. rewrite Hc in Hh. by destruct Hh.
  - intros Hat Hdone.
    destruct (thread_releases_before_it_returns args i evs s w w'
                Hw Hb Hat Hw' Hdone)
      as (evs1 & o & evs2 & w1 & p & Hevs & Hw1 & Hat1 & Hp1 & HP).
    exists evs1, o, evs2, w1, p. split_and!; try done.
    intros Hholds Htry.
    destruct (exec_thread_invariant
                (λ w0, (kill_received w0 = true
                        ∧ (at_ w0 = WTry →
                           proxy_fail_counter w0 ≠ PROXY_FAIL_LIMIT)
                        ∧ proxy w0 = proxy w)
                       ∧ (holds_proxy w0 = true ∨ at_ w0 = WDone)) args i)
      with (evs := evs1) (s := s) (w := w) as (w2 & Hw2 & (_ & _ & Hsame) & _).
    + intros v t v' t' Hrel [(Hk & Ht & Hpx) Hh]. split.
      * destruct Hh as [Hh|Hd].
        -- destruct (run_rel_keeps_proxy _ _ _ _ _ Hrel Hk Ht Hh)
             as (? & ? & Hsame).
           split_and!; [done..|]. by rewrite Hsame.
        -- assert (v' = v) as ->; [|done].
           destruct Hrel; congruence.
      * by eapply run_rel_holding.
    + intros v [(Hk & Ht & Hpx) Hh]. done.
    + done.
    + split; [done|by left].
    + rewrite Hw1 in Hw2. injection Hw2 as <-. by rewrite <- Hsame.
Qed.

End Runs.

(** ** Invariants of runs *)

Section Invariants.
Context `{PyRuntime}.

(** After the dispatch, a step is a step of one thread, or a step of
    [main] that touches neither [PROXIES], [RESULTS] nor [NET] and at most
    sets the flag of every thread. *)
Lemma step_cases args e s :
  MAIN s ≠ MStart →
  MAIN (step args e s) ≠ MStart
  ∧ ((∃ i w w' s',
        THREADS s !! i = Some w ∧ run_rel i w s w' s'
        ∧ step args e s = set_THREADS (<[i := w']> (THREADS s)) s')
     ∨ (PROXIES (step args e s) = PROXIES s
        ∧ RESULTS (step args e s) = RESULTS s
        ∧ NET (step args e s) = NET s
        ∧ (THREADS (step args e s) = THREADS s
           ∨ THREADS (step args e s) = set_kill true <$> THREADS s))).
Proof.
  intros Hmain. destruct e as [o interrupt|i o]; simpl.
  - unfold main_step. destruct (MAIN s) eqn:Hm; [done| | | |].
    + destruct (has_live_threads s); [destruct (c =? 2)|]; simpl; auto 10.
    + destruct interrupt; simpl; auto 10.
    + rewrite Hm. auto 10.
    + rewrite Hm. auto 10.
  - destruct (thread_step_main i o s) as [-> _]. split; [done|].
    destruct (THREADS s !! i) as [w|] eqn:Hw.
    + destruct (thread_step_rel i o s w Hw) as (w' & s' & Hrel & ->).
      left. by exists i, w, w', s'.
    + rewrite thread_step_absent by done. auto 10.
Qed.

(** An invariant of the states after the dispatch holds throughout the
    run. *)
Lemma exec_invariant (I : State → Prop) args :
  (∀ e s, MAIN s ≠ MStart → I s → I (step args e s)) →
  ∀ evs s, MAIN s ≠ MStart → I s → I (exec args evs s).
Proof.
  intros Hstep. induction evs as [|e evs IH]; intros s Hmain HI; [done|].
  rewrite exec_cons. apply IH.
  - by apply step_cases.
  - by apply Hstep.
Qed.

(** Before the dispatch there is no thread to take a step. *)
Lemma initial_thread_step proxies i o :
  thread_step i o (initial proxies) = initial proxies.
Proof. done. Qed.

(** *** [proxy] is bound where it is used *)

Lemma spawned_not_holding o w : spawned_by o w → holds_proxy w = false.
Proof. by intros (i & q & a & b & -> & _). Qed.

Lemma step_proxy_bound args e s :
  Forall proxy_bound (THREADS s) →
  Forall proxy_bound (THREADS (step args e s)).
Proof.
  intros Hall. destruct e as [o interrupt|i o]; simpl.
  - unfold main_step. destruct (MAIN s) eqn:Hm; simpl; try done.
    + destruct (search_grows o (Some (keyword args))
                  (Some (default 1 (page args))) s)
        as [_ _ _ (T & -> & HT) _ _].
      apply Forall_app. split; [done|].
      eapply Forall_impl; [exact HT|]. intros w Hw.
      unfold proxy_bound. by rewrite (spawned_not_holding _ _ Hw).
    + destruct (has_live_threads s); [destruct (c =? 2)|]; done.
    + destruct interrupt; simpl; [|done].
      apply Forall_fmap. eapply Forall_impl; [exact Hall|]. done.
  - destruct (THREADS s !! i) as [w|] eqn:Hw.
    + destruct (thread_step_rel i o s w Hw) as (w' & s' & Hrel & ->).
      simpl. apply Forall_insert; [done|].
      eapply run_rel_proxy_bound; [done|].
      by eapply (Forall_lookup_1 _ _ _ _ Hall).
    + by rewrite thread_step_absent.
Qed.

(** In every state of a run, every thread that holds a proxy has it in its
    variable [proxy]. *)
Lemma reachable_proxy_bound args evs proxies :
  Forall proxy_bound (THREADS (exec args evs (initial proxies))).
Proof.
  assert (∀ s, Forall proxy_bound (THREADS s) →
               Forall proxy_bound (THREADS (exec args evs s))) as Hexec.
  { induction evs as [|e evs IH]; intros s Hs; [done|].
    rewrite exec_cons. by apply IH, step_proxy_bound. }
  apply Hexec. constructor.
Qed.

End Invariants.

(** ** The first page *)

Section FirstPage.
Context `{PyRuntime}.

Lemma spawn_threads_ok q qpt lp range tcp s :
  spawn_threads q qpt (JNum lp) range tcp s =
  ({| PROXIES := PROXIES s;
      THREADS := THREADS s
                 ++ (thread_of_range q <$> thread_ranges qpt lp range tcp);
      RESULTS := RESULTS s;
      STDOUT := STDOUT s
                ++ (line_of_range <$> thread_ranges qpt lp range tcp);
      NET := NET s; OUTFILE := OUTFILE s; MAIN := MAIN s |}, inr tt).
Proof.
  revert tcp s. induction range as [|i range IH]; intros tcp s.
  - simpl. rewrite !app_nil_r. by destruct s.
  - cbn [spawn_threads thread_ranges py_num or_raise].
    unfold bind at 1. cbn [ret]. unfold bind at 1. cbn [modify].
    unfold bind at 1. cbn [modify]. rewrite IH. simpl.
    by rewrite <- !app_assoc.
Qed.

(** What [search] does with a first response as the API documents it. *)
Lemma search_first_page status_code d total cp lp items q page s :
  q ≠ "" → 0 < page → raise_for_status status_code = false →
  d !! "total" = Some (JNum total) →
  d !! "current_page" = Some (JNum cp) →
  d !! "last_page" = Some (JNum lp) →
  d !! "data" = Some (JArr (JObj <$> items)) →
  let s' := search (Response status_code (Some (JObj d))) (Some q)
              (Some page) s in
  THREADS s' = THREADS s
               ++ (thread_of_range q
                     <$> thread_ranges
                           (ceil_div (lp - cp) (Z.of_nat NUMBER_OF_THREADS))
                           lp (seq 0 NUMBER_OF_THREADS) (cp + 1))
  ∧ RESULTS s' = RESULTS s ++ (Result_of_dict <$> items)
  ∧ NET s' = NET s ++ [first_request q page]
  ∧ PROXIES s' = PROXIES s ∧ OUTFILE s' = OUTFILE s ∧ MAIN s' = MAIN s.
Proof.
  intros Hq Hpage Hst Htotal Hcp Hlp Hdata s'. subst s'. unfold search.
  rewrite search_try_sent by done.
  unfold search_content, bind, or_raise, of_sum, modify, read, ret, raise.
  cbn [py_get]. rewrite Htotal, Hcp, Hlp, Hdata.
  cbn -[spawn_threads append_results thread_ranges NUMBER_OF_THREADS
        ceil_div].
  rewrite append_results_dicts.
  cbn -[spawn_threads append_results thread_ranges NUMBER_OF_THREADS
        ceil_div].
  rewrite spawn_threads_ok.
  destruct (length (PROXIES s) =? 0)%nat; simpl; done.
Qed.

End FirstPage.

(** ** The pages the threads fetch *)

Section Pages.
Context `{PyRuntime}.

Lemma thread_pages_app N N' :
  thread_pages (N ++ N') = thread_pages N ++ thread_pages N'.
Proof. unfold thread_pages. by rewrite List.filter_app, fmap_app. Qed.

Lemma thread_pages_own i w : thread_pages [thread_request i w] = [counter w].
Proof. done. Qed.

Lemma thread_pages_dispatcher N :
  Forall (λ r, req_by r = None) N → thread_pages N = [].
Proof.
  induction 1 as [|r N Hr _ IH]; [done|]. unfold thread_pages in *. simpl.
  rewrite bool_decide_eq_false_2; [done|]. by rewrite Hr; intros [].
Qed.

Lemma run_rel_within lp i w s w' s' :
  run_rel i w s w' s' → within lp w → within lp w'.
Proof.
  unfold within. destruct 1; simpl; intros [Hend Hin]; split; try done;
    intros [|]; try done; auto;
    repeat match goal with H : at_ _ = _ |- _ => rewrite H in * end;
    try done; auto.
Qed.

Lemma step_pages_inv lp args e s :
  MAIN s ≠ MStart → pages_inv lp s → pages_inv lp (step args e s).
Proof.
  intros Hmain [Hthreads Hpages].
  destruct (step_cases args e s Hmain)
    as [_ [(i & w & w' & s' & Hw & Hrel & ->)
          |(_ & _ & HNET & [HT|HT])]].
  - assert (within lp w) as Hwithin
      by (by eapply (Forall_lookup_1 _ _ _ _ Hthreads)).
    split; simpl.
    + apply Forall_insert; [done|]. by eapply run_rel_within.
    + destruct (run_rel_NET _ _ _ _ _ Hrel) as [-> | (Hat & _ & ->)];
        [done|].
      rewrite thread_pages_app, thread_pages_own. apply Forall_app.
      split; [done|]. apply Forall_singleton.
      destruct Hwithin as [Hend Hin]. specialize (Hin (or_intror Hat)). lia.
  - split; by rewrite ?HT, ?HNET.
  - split; rewrite ?HT, ?HNET; [|done].
    apply Forall_fmap. eapply Forall_impl; [exact Hthreads|]. done.
Qed.

(** C1, as the code has it.  Whatever the run, no thread requests the page
    ["last_page"] of the first response, or any page after it: every page
    a thread requests lies below it.  The ranges that [search] hands out
    end at [end_page] inclusive (the next range starts at [end_page + 1]),
    while the loop of [run] stops before [end_page]. *)
Theorem last_page_is_never_fetched args proxies st d lp interrupt evs :
  d !! "last_page" = Some (JNum lp) →
  Forall (λ p, p < lp)
    (thread_pages
       (NET (exec args (EvMain (Response st (Some (JObj d))) interrupt :: evs)
               (initial proxies)))).
Proof.
  intros Hlp. rewrite exec_cons.
  set (s1 := step args _ _).
  assert (MAIN s1 ≠ MStart) as Hmain by done.
  assert (pages_inv lp s1) as Hinv.
  { subst s1. simpl. unfold main_step. simpl.
    destruct (search_grows (Response st (Some (JObj d)))
                (Some (keyword args)) (Some (default 1 (page args)))
                (initial proxies))
      as [_ _ _ (T & HT & Hspawned) _ (N & HN & HNone)].
    split; simpl; rewrite ?HT, ?HN; simpl.
    - eapply Forall_impl; [exact Hspawned|].
      intros w (i & q & a & b & -> & Hb). split; simpl.
      + by eapply Hb.
      + by intros [|].
    - by rewrite thread_pages_dispatcher. }
  apply (exec_invariant (pages_inv lp) args (step_pages_inv lp args)
           evs s1 Hmain Hinv).
Qed.

End Pages.

(** ** A result of one page *)

Section SinglePage.
Context `{PyRuntime}.

Lemma thread_ranges_empty cp range :
  thread_ranges 0 cp range (cp + 1) = (λ i, (i, (cp + 1, cp))) <$> range.
Proof.
  induction range as [|i range IH]; [done|]. simpl.
  replace (cp + 1 + 0 >? cp) with true by (symmetry; apply Z.gtb_lt; lia).
  by rewrite IH.
Qed.

Lemma run_rel_idle cp i w s w' s' :
  run_rel i w s w' s' → idle cp w →
  idle cp w' ∧ RESULTS s' = RESULTS s ∧ NET s' = NET s.
Proof.
  unfold idle.
  destruct 1; simpl; intros (Hstart & Hend & Hc & ? & ? & ?);
    try done; try (split_and!; done).
  exfalso. specialize (Hc ltac:(done)). lia.
Qed.

Lemma step_idle_inv cp n R N args e s :
  MAIN s ≠ MStart → idle_inv cp n R N s → idle_inv cp n R N (step args e s).
Proof.
  intros Hmain (Hthreads & Hlen & HR & HN).
  destruct (step_cases args e s Hmain)
    as [_ [(i & w & w' & s' & Hw & Hrel & ->)
          |(_ & HRES & HNET & [HT|HT])]].
  - assert (idle cp w) as Hidle
      by (by eapply (Forall_lookup_1 _ _ _ _ Hthreads)).
    destruct (run_rel_idle _ _ _ _ _ _ Hrel Hidle) as (Hidle' & HR' & HN').
    split_and!; simpl; [|by rewrite length_insert|congruence..].
    by apply Forall_insert.
  - unfold idle_inv. by rewrite HT, HRES, HNET.
  - unfold idle_inv. rewrite HT, HRES, HNET, length_fmap.
    split_and!; try done.
    apply Forall_fmap. eapply Forall_impl; [exact Hthreads|]. done.
Qed.

(** C2, as amended.  When the first response passes the status tests and
    says that the current page is the last one, [search] still starts
    [NUMBER_OF_THREADS] threads, each with the empty range
    [(current_page + 1, current_page)]; whatever the run, none of them
    sends a request or appends to [RESULTS], which holds exactly the items
    of the first page, and so does the output file once [export] has
    written it. *)
Theorem single_page_run args proxies st d total cp items interrupt evs :
  keyword args ≠ "" → 0 < default 1 (page args) →
  raise_for_status st = false →
  d !! "total" = Some (JNum total) →
  d !! "current_page" = Some (JNum cp) →
  d !! "last_page" = Some (JNum cp) →
  d !! "data" = Some (JArr (JObj <$> items)) →
  let s := exec args (EvMain (Response st (Some (JObj d))) interrupt :: evs)
             (initial proxies) in
  length (THREADS s) = NUMBER_OF_THREADS
  ∧ Forall (λ w, start_page w = cp + 1 ∧ end_page w = cp) (THREADS s)
  ∧ NET s = [first_request (keyword args) (default 1 (page args))]
  ∧ RESULTS s = Result_of_dict <$> items
  ∧ (MAIN s = MFinished →
     OUTFILE s = Some (default "results.json" (output args),
                       export_doc (Result_of_dict <$> items))).
Proof.
  intros Hq Hpage Hst Htotal Hcp Hlp Hdata s.
  assert (export_inv args s) as Hexport
    by (by apply (exec_export_inv args _ (initial proxies))).
  unfold export_inv in Hexport.
  assert (idle_inv cp NUMBER_OF_THREADS (Result_of_dict <$> items)
            [first_request (keyword args) (default 1 (page args))] s)
    as (Hidle & Hlen & HR & HN).
  { subst s. rewrite exec_cons. apply exec_invariant.
    - apply step_idle_inv.
    - done.
    - simpl. unfold main_step. simpl.
      destruct (search_first_page st d total cp cp items (keyword args)
                  (default 1 (page args)) (initial proxies)
                  Hq Hpage Hst Htotal Hcp Hlp Hdata)
        as (HT & HR & HN & _).
      unfold idle_inv. simpl. rewrite HT, HR, HN.
      rewrite Z.sub_diag. change (ceil_div 0 _) with 0.
      rewrite thread_ranges_empty. simpl. split_and!; try done.
      repeat constructor; done. }
  split_and!; try done.
  - eapply Forall_impl; [exact Hidle|]. by intros w (? & ? & _).
  - intros Hfin. rewrite Hfin in Hexport. destruct Hexport as [-> _].
    by rewrite HR.
Qed.

End SinglePage.

(** ** The proxies *)

Section Proxies.
Context `{PyRuntime}.

Lemma list_pop_Some {A} (l : list A) p P :
  list_pop l = Some (p, P) → l = P ++ [p].
Proof.
  unfold list_pop. destruct (last l) as [x|] eqn:Hlast; [|done].
  intros [= <- <-]. apply last_Some in Hlast as (l' & ->).
  by rewrite removelast_last.
Qed.

Lemma checked_out_insert T i w w' :
  T !! i = Some w →
  (sum_list_with held (<[i := w']> T) + held w
   = sum_list_with held T + held w')%nat.
Proof.
  revert i. induction T as [|x T IH]; intros [|i]; csimpl; try done.
  - intros [= ->]. lia.
  - intros Hw. specialize (IH i Hw). csimpl in *. lia.
Qed.

Lemma checked_out_set_kill T :
  sum_list_with held (set_kill true <$> T) = sum_list_with held T.
Proof. induction T as [|w T IH]; [done|]. csimpl. by rewrite IH. Qed.

(** A step of a thread never adds to the proxies in the pool and in the
    hands of threads, and takes one away exactly when it is a rotation:
    [proxy = PROXIES.pop()] under [proxy_fail_counter == PROXY_FAIL_LIMIT]
    overwrites the proxy the thread holds. *)
Lemma run_rel_proxies i w s w' s' :
  run_rel i w s w' s' → proxy_bound w →
  (held w' + length (PROXIES s') = held w + length (PROXIES s)
   ∨ (at_ w = WTry ∧ proxy_fail_counter w = PROXY_FAIL_LIMIT
      ∧ S (held w' + length (PROXIES s')) = held w + length (PROXIES s)))%nat.
Proof.
  unfold proxy_bound, held, holds_proxy.
  destruct 1; simpl; intros Hb;
    repeat match goal with
           | H : at_ _ = _ |- _ => rewrite H in *
           | H : list_pop _ = Some _ |- _ => apply list_pop_Some in H as ->
           end;
    rewrite ?length_app; simpl; auto; try (left; lia); try (right; lia).
  - right. split_and!; [done..|lia].
  - destruct Hb as [x ->]; [done|]. simpl. left. lia.
Qed.

(** The proxies in the pool and in the hands of threads never get more. *)
Lemma step_proxy_total args e s :
  Forall proxy_bound (THREADS s) →
  (checked_out (step args e s) + length (PROXIES (step args e s))
   ≤ checked_out s + length (PROXIES s))%nat.
Proof.
  intros Hb. unfold checked_out.
  destruct e as [o interrupt|i o]; simpl.
  - unfold main_step. destruct (MAIN s) eqn:Hm; simpl; try done.
    + destruct (search_grows o (Some (keyword args))
                  (Some (default 1 (page args))) s)
        as [-> _ _ (T & -> & HT) _ _].
      rewrite sum_list_with_app.
      assert (sum_list_with held T = 0%nat) as ->; [|lia].
      induction HT as [|w T Hw _ IH]; [done|]. simpl. rewrite IH.
      unfold held. by rewrite (spawned_not_holding _ _ Hw).
    + destruct (has_live_threads s); [destruct (c =? 2)|]; simpl; done.
    + destruct interrupt; simpl; [|done].
      by rewrite checked_out_set_kill.
  - destruct (THREADS s !! i) as [w|] eqn:Hw.
    + destruct (thread_step_rel i o s w Hw) as (w' & s' & Hrel & ->).
      simpl. pose proof (checked_out_insert (THREADS s) i w w' Hw).
      assert (proxy_bound w) as Hbw
        by (by eapply (Forall_lookup_1 _ _ _ _ Hb)).
      destruct (run_rel_proxies _ _ _ _ _ Hrel Hbw) as [|(_ & _ & ?)]; lia.
    + by rewrite thread_step_absent.
Qed.

(** Along a run, the proxies in the pool and in the hands of threads never
    get more than there were at the start. *)
Lemma proxies_never_get_more args evs proxies :
  let s := exec args evs (initial proxies) in
  (checked_out s + length (PROXIES s) ≤ length proxies)%nat.
Proof.
  induction evs as [|e evs IH] using rev_ind; [simpl; lia|].
  simpl in *. rewrite exec_snoc.
  pose proof (step_proxy_total args e (exec args evs (initial proxies))
                (reachable_proxy_bound args evs proxies)). lia.
Qed.

End Proxies.

(** ** The ranges of the threads *)

Section Ranges.
Context `{PyRuntime}.

Lemma thread_ranges_bounds qpt lp range tcp r :
  r ∈ thread_ranges qpt lp range tcp →
  r.2.2 ≤ lp ∧ r.2.2 ≤ r.2.1 + qpt.
Proof.
  revert tcp. induction range as [|i range IH]; intros tcp; simpl.
  - by intros ?%elem_of_nil.
  - intros [->|Hr]%elem_of_cons; [|by eapply IH]. simpl.
    destruct (tcp + qpt >? lp) eqn:Hgt; rewrite Z.gtb_ltb in Hgt.
    + apply Z.ltb_lt in Hgt. lia.
    + apply Z.ltb_ge in Hgt. lia.
Qed.

(** A range with a page to fetch does not start before the point the loop
    of [search] had reached. *)
Lemma thread_ranges_start qpt lp range tcp r p :
  r ∈ thread_ranges qpt lp range tcp → fetches r p → tcp ≤ r.2.1.
Proof.
  unfold fetches. revert tcp. induction range as [|i range IH]; intros tcp.
  - by intros ?%elem_of_nil.
  - simpl. intros [->|Hr]%elem_of_cons Hp; [simpl; lia|].
    pose proof (IH _ Hr Hp) as Hnext.
    destruct (thread_ranges_bounds _ _ _ _ _ Hr) as [Hlp Hqpt].
    destruct (tcp + qpt >? lp) eqn:Hgt; rewrite Z.gtb_ltb in Hgt.
    + apply Z.ltb_lt in Hgt. lia.
    + apply Z.ltb_ge in Hgt. lia.
Qed.

(** The ranges [search] hands out share no page to fetch. *)
Lemma thread_ranges_disjoint qpt lp range tcp j k rj rk p :
  thread_ranges qpt lp range tcp !! j = Some rj →
  thread_ranges qpt lp range tcp !! k = Some rk →
  j ≠ k → fetches rj p → fetches rk p → False.
Proof.
  assert (∀ range tcp j k rj rk,
            thread_ranges qpt lp range tcp !! j = Some rj →
            thread_ranges qpt lp range tcp !! k = Some rk →
            (j < k)%nat → fetches rj p → fetches rk p → False) as Hlt.
  { clear. induction range as [|i range IH]; intros tcp j k rj rk; [done|].
    simpl. destruct j as [|j], k as [|k]; simpl; try lia.
    - intros [= <-] Hk _ Hj Hp.
      apply list_elem_of_lookup_2 in Hk.
      pose proof (thread_ranges_start _ _ _ _ _ _ Hk Hp).
      unfold fetches in *. simpl in *. lia.
    - intros Hj Hk Hjk. eapply IH; [done..|lia]. }
  intros Hj Hk Hjk Hpj Hpk.
  destruct (decide (j < k)%nat).
  - by eapply (Hlt range tcp j k).
  - eapply (Hlt range tcp k j); [done..|lia|done|done].
Qed.

End Ranges.

Section RangesInRuns.
Context `{PyRuntime}.

Lemma run_rel_in_range i w s w' s' :
  run_rel i w s w' s' → in_range w → in_range w'.
Proof.
  unfold in_range. destruct 1; simpl; intros [Hstart Hend];
    repeat match goal with H : at_ _ = _ |- _ => rewrite H in * end;
    split; intros Hx; try done; try (destruct Hx; done);
    try (specialize (Hstart ltac:(done)); lia);
    try (apply Hend; auto).
Qed.

Lemma run_rel_range_of i w s w' s' :
  run_rel i w s w' s' → range_of w' = range_of w.
Proof.
  intros (_ & _ & _ & Hn & _ & Hs & He & _)%run_rel_frame.
  unfold range_of. by rewrite Hn, Hs, He.
Qed.

Lemma range_of_thread_of_range q (L : list (nat * (Z * Z))) :
  range_of <$> (thread_of_range q <$> L) = L.
Proof.
  rewrite <- list_fmap_compose. rewrite <- (list_fmap_id L) at 2.
  apply list_fmap_ext. by intros _ [i [a b]] _.
Qed.

(** After the dispatch no step changes the range of a thread. *)
Lemma step_range_of args e s :
  MAIN s ≠ MStart →
  range_of <$> THREADS (step args e s) = range_of <$> THREADS s.
Proof.
  intros Hmain.
  destruct (step_cases args e s Hmain)
    as [_ [(i & w & w' & s' & Hw & Hrel & ->)|(_ & _ & _ & [->| ->])]].
  - simpl. rewrite list_fmap_insert, (run_rel_range_of _ _ _ _ _ Hrel).
    apply list_insert_id. by rewrite list_lookup_fmap, Hw.
  - done.
  - rewrite <- list_fmap_compose. done.
Qed.

Lemma exec_range_of args evs s :
  MAIN s ≠ MStart →
  range_of <$> THREADS (exec args evs s) = range_of <$> THREADS s.
Proof.
  intros Hmain.
  apply (exec_invariant
           (λ s', range_of <$> THREADS s' = range_of <$> THREADS s) args);
    [|done..].
  intros e s' Hmain' <-. by apply step_range_of.
Qed.

Lemma step_range_inv args e s :
  MAIN s ≠ MStart → range_inv s → range_inv (step args e s).
Proof.
  intros Hmain [Hthreads Hreq].
  destruct (step_cases args e s Hmain)
    as [_ [(i & w & w' & s' & Hw & Hrel & ->)
          |(_ & _ & HNET & HT)]].
  - assert (in_range w) as Hin
      by (by eapply (Forall_lookup_1 _ _ _ _ Hthreads)).
    pose proof (run_rel_frame _ _ _ _ _ Hrel)
      as (_ & _ & _ & _ & _ & Hs & He & _).
    split; simpl.
    + apply Forall_insert; [done|]. by eapply run_rel_in_range.
    + assert (∀ r j, r ∈ NET s → req_by r = Some j →
                ∃ wj, <[i := w']> (THREADS s) !! j = Some wj
                      ∧ start_page wj ≤ req_page r < end_page wj) as Hold.
      { intros r j Hr Hby. destruct (Hreq r j Hr Hby) as (wj & Hj & Hp).
        destruct (decide (i = j)) as [<-|Hne].
        - exists w'. rewrite list_lookup_insert_eq
            by (by eapply lookup_lt_Some).
          rewrite Hw in Hj. injection Hj as <-. by rewrite Hs, He.
        - exists wj. by rewrite list_lookup_insert_ne. }
      intros r j Hr Hby.
      destruct (run_rel_NET _ _ _ _ _ Hrel) as [HN | (Hat & _ & HN)];
        rewrite HN in Hr; [by eapply Hold|].
      apply elem_of_app in Hr as [Hr|Hr%list_elem_of_singleton];
        [by eapply Hold|].
      subst r. simpl in Hby. injection Hby as <-. exists w'.
      rewrite list_lookup_insert_eq by (by eapply lookup_lt_Some).
      split; [done|]. rewrite Hs, He. simpl.
      destruct Hin as [Hstart Hend].
      specialize (Hstart ltac:(by rewrite Hat)).
      specialize (Hend ltac:(auto)). lia.
  - split.
    + destruct HT as [->| ->]; [done|].
      apply Forall_fmap. eapply Forall_impl; [exact Hthreads|]. done.
    + rewrite HNET. intros r j Hr Hby.
      destruct (Hreq r j Hr Hby) as (wj & Hj & Hp).
      destruct HT as [->| ->]; [by exists wj|].
      exists (set_kill true wj). by rewrite list_lookup_fmap, Hj.
Qed.

(** X21, the part of C1 that holds.  In a run whose first response is as
    the API documents it, the requests of two different threads are never
    for the same page, and every request of a thread is for a page from its
    [start_page] up to, but not including, its [end_page]. *)
Theorem threads_fetch_disjoint_pages args proxies st d total cp lp items
    interrupt evs :
  keyword args ≠ "" → 0 < default 1 (page args) →
  raise_for_status st = false →
  d !! "total" = Some (JNum total) →
  d !! "current_page" = Some (JNum cp) →
  d !! "last_page" = Some (JNum lp) →
  d !! "data" = Some (JArr (JObj <$> items)) →
  let s := exec args (EvMain (Response st (Some (JObj d))) interrupt :: evs)
             (initial proxies) in
  range_of <$> THREADS s
    = thread_ranges (ceil_div (lp - cp) (Z.of_nat NUMBER_OF_THREADS)) lp
        (seq 0 NUMBER_OF_THREADS) (cp + 1)
  ∧ (∀ r i, r ∈ NET s → req_by r = Some i →
            ∃ w, THREADS s !! i = Some w
                 ∧ start_page w ≤ req_page r < end_page w)
  ∧ (∀ r1 r2 i j, r1 ∈ NET s → r2 ∈ NET s →
                  req_by r1 = Some i → req_by r2 = Some j → i ≠ j →
                  req_page r1 ≠ req_page r2).
Proof.
  intros Hq Hpage Hst Htotal Hcp Hlp Hdata s.
  set (s1 := step args (EvMain (Response st (Some (JObj d))) interrupt)
               (initial proxies)).
  assert (MAIN s1 ≠ MStart) as Hmain by done.
  destruct (search_first_page st d total cp lp items (keyword args)
              (default 1 (page args)) (initial proxies)
              Hq Hpage Hst Htotal Hcp Hlp Hdata)
    as (HT & _ & HN & _).
  assert (THREADS s1
          = thread_of_range (keyword args)
              <$> thread_ranges
                    (ceil_div (lp - cp) (Z.of_nat NUMBER_OF_THREADS)) lp
                    (seq 0 NUMBER_OF_THREADS) (cp + 1)) as HT1
    by (rewrite <- (app_nil_l (_ <$> _)); exact HT).
  assert (NET s1 = [first_request (keyword args) (default 1 (page args))])
    as HN1 by exact HN.
  assert (range_of <$> THREADS s1
          = thread_ranges (ceil_div (lp - cp) (Z.of_nat NUMBER_OF_THREADS))
              lp (seq 0 NUMBER_OF_THREADS) (cp + 1)) as Hranges1
    by (rewrite HT1; apply range_of_thread_of_range).
  assert (range_inv s1) as Hinv1.
  { split.
    - rewrite HT1. apply Forall_fmap, Forall_forall.
      intros r _. split; simpl; [done|by intros [|]].
    - rewrite HN1. intros r i Hr%list_elem_of_singleton Hby. by subst r. }
  assert (range_of <$> THREADS s
          = thread_ranges (ceil_div (lp - cp) (Z.of_nat NUMBER_OF_THREADS))
              lp (seq 0 NUMBER_OF_THREADS) (cp + 1)) as Hranges.
  { subst s. rewrite exec_cons. fold s1. by rewrite exec_range_of. }
  assert (range_inv s) as [_ Hreq].
  { subst s. rewrite exec_cons. fold s1.
    by apply (exec_invariant range_inv args (step_range_inv args)). }
  split_and!; [done..|].
  intros r1 r2 i j Hr1 Hr2 Hby1 Hby2 Hij Hsame.
  assert (∀ r k, r ∈ NET s → req_by r = Some k →
            ∃ rk, thread_ranges
                    (ceil_div (lp - cp) (Z.of_nat NUMBER_OF_THREADS)) lp
                    (seq 0 NUMBER_OF_THREADS) (cp + 1) !! k = Some rk
                  ∧ fetches rk (req_page r)) as Hfetch.
  { intros r k Hr Hby. destruct (Hreq r k Hr Hby) as (w & Hw & Hp).
    exists (range_of w). split; [|done].
    by rewrite <- Hranges, list_lookup_fmap, Hw. }
  destruct (Hfetch r1 i Hr1 Hby1) as (ri & Hi & Hpi).
  destruct (Hfetch r2 j Hr2 Hby2) as (rj & Hj & Hpj).
  rewrite Hsame in Hpi.
  by eapply (thread_ranges_disjoint _ _ _ _ i j ri rj (req_page r2)).
Qed.

End RangesInRuns.

(** ** What a run keeps *)

Section Steps.
Context `{PyRuntime}.

(** What a step of [main] does to the shared lists. *)
Lemma main_step_effect args o interrupt s :
  let s' := main_step args o interrupt s in
  PROXIES s' = PROXIES s
  ∧ (∃ R, RESULTS s' = RESULTS s ++ R)
  ∧ (∃ N, NET s' = NET s ++ N ∧ Forall (λ r, req_by r = None) N)
  ∧ ((∃ T, THREADS s' = THREADS s ++ T ∧ Forall (spawned_by o) T)
     ∨ THREADS s' = set_kill true <$> THREADS s).
Proof.
  assert (∀ s' : State,
            PROXIES s' = PROXIES s → RESULTS s' = RESULTS s →
            NET s' = NET s → THREADS s' = THREADS s →
            PROXIES s' = PROXIES s
            ∧ (∃ R, RESULTS s' = RESULTS s ++ R)
            ∧ (∃ N, NET s' = NET s ++ N ∧ Forall (λ r, req_by r = None) N)
            ∧ ((∃ T, THREADS s' = THREADS s ++ T ∧ Forall (spawned_by o) T)
               ∨ THREADS s' = set_kill true <$> THREADS s)) as Hsame.
  { intros s' -> -> -> ->. split_and!; [done|..].
    - exists []. by rewrite app_nil_r.
    - exists []. by rewrite app_nil_r.
    - left. exists []. by rewrite app_nil_r. }
  simpl. unfold main_step. destruct (MAIN s) eqn:Hmain.
  - destruct (search_grows o (Some (keyword args))
                (Some (default 1 (page args))) s)
      as [HP _ _ HT HR HN]. simpl. split_and!; [done..|by left].
  - destruct (has_live_threads s); [destruct (c =? 2)|]; by apply Hsame.
  - destruct interrupt; [|by apply Hsame]. simpl. split_and!; [done|..].
    + exists []. by rewrite app_nil_r.
    + exists []. by rewrite app_nil_r.
    + by right.
  - by apply Hsame.
  - by apply Hsame.
Qed.

Lemma run_rel_RESULTS i w s w' s' :
  run_rel i w s w' s' → ∃ R, RESULTS s' = RESULTS s ++ R.
Proof.
  destruct 1; simpl; eauto; exists []; by rewrite app_nil_r.
Qed.

Lemma step_RESULTS args e s :
  ∃ R, RESULTS (step args e s) = RESULTS s ++ R.
Proof.
  destruct e as [o interrupt|i o]; simpl.
  - by destruct (main_step_effect args o interrupt s) as (_ & ? & _).
  - destruct (THREADS s !! i) as [w|] eqn:Hw.
    + destruct (thread_step_rel i o s w Hw) as (w' & s' & Hrel & ->).
      simpl. by eapply run_rel_RESULTS.
    + rewrite thread_step_absent by done. exists []. by rewrite app_nil_r.
Qed.

(** X1.  [RESULTS] is only ever appended to: whatever the state and the
    run from it, the results it held are still there, in the same places,
    at the end. *)
Theorem results_are_never_discarded args evs s :
  RESULTS s `prefix_of` RESULTS (exec args evs s).
Proof.
  revert s. induction evs as [|e evs IH]; intros s; [done|].
  rewrite exec_cons. etrans; [|apply IH].
  destruct (step_RESULTS args e s) as (R & ->). by apply prefix_app_r.
Qed.

(** X2.  After [export] nothing happens any more: once a run has brought
    [main] to its end through [export], no further event changes the
    state, so the file that was written holds the final [RESULTS]. *)
Theorem nothing_happens_after_export args proxies evs evs' :
  MAIN (exec args evs (initial proxies)) = MFinished →
  exec args (evs ++ evs') (initial proxies)
  = exec args evs (initial proxies).
Proof.
  intros Hfin. unfold exec at 1. rewrite fold_left_app.
  fold (exec args evs (initial proxies)).
  assert (export_inv args (exec args evs (initial proxies))) as Hinv
    by (by apply exec_export_inv).
  unfold export_inv in Hinv. rewrite Hfin in Hinv. destruct Hinv as [_ Hnone].
  revert Hfin Hnone. generalize (exec args evs (initial proxies)).
  induction evs' as [|e evs' IH]; intros s Hfin Hnone; [done|].
  simpl. assert (step args e s = s) as ->; [|by apply IH].
  destruct e as [o interrupt|i o]; simpl.
  - unfold main_step. by rewrite Hfin.
  - by apply thread_step_all_terminated.
Qed.

(** X3.  Whatever the answer to a request, the iteration either succeeds
    ([counter] goes up by one and [proxy_fail_counter] is set to 0) or
    counts as a failure ([counter] stays and [proxy_fail_counter] goes up
    by one): no answer leaves both as they were, none skips a page, and
    all lead to [time.sleep(1)]. *)
Theorem every_response_advances_or_counts i o w s :
  at_ w = WFetch →
  let '(w', s') := run_step i o w s in
  at_ w' = WSleep
  ∧ NET s' = NET s ++ [thread_request i w]
  ∧ ((counter w' = counter w + 1 ∧ proxy_fail_counter w' = 0)
     ∨ (counter w' = counter w
        ∧ proxy_fail_counter w' = proxy_fail_counter w + 1)).
Proof.
  intros Hat. pose proof (run_step_rel i o w s) as Hrel.
  destruct (run_step i o w s) as [w' s']. simpl in Hrel.
  destruct Hrel; simpl; try congruence; auto.
  unfold is_alive in *. by rewrite Hat in *.
Qed.

Lemma append_results_bad_item (good : list (gmap string json)) bad rest R :
  (∀ r, bad ≠ JObj r) →
  append_results ((JObj <$> good) ++ bad :: rest) R
  = (R ++ (Result_of_dict <$> good), Some AttributeError).
Proof.
  intros Hbad. revert R. induction good as [|r good IH]; intros R; simpl.
  - rewrite app_nil_r. destruct bad; try done. by destruct (Hbad d).
  - rewrite IH, <- app_assoc. done.
Qed.

(** X4.  When an item of ["data"] is not an object, the items before it
    are appended to [RESULTS] all the same, the items after it are not,
    and the iteration counts as a failure: [counter] stays on the page,
    although a part of its items is in [RESULTS] already. *)
Theorem bad_item_keeps_the_items_before_it i status_code d
    (good : list (gmap string json)) bad rest w s :
  at_ w = WFetch →
  raise_for_status status_code = false →
  d !! "data" = Some (JArr ((JObj <$> good) ++ bad :: rest)) →
  (∀ r, bad ≠ JObj r) →
  let '(w', s') := run_step i (Response status_code (Some (JObj d))) w s in
  RESULTS s' = RESULTS s ++ (Result_of_dict <$> good)
  ∧ counter w' = counter w
  ∧ proxy_fail_counter w' = proxy_fail_counter w + 1
  ∧ at_ w' = WSleep.
Proof.
  intros Hat Hst Hdata Hbad.
  assert (run_step i (Response status_code (Some (JObj d))) w s
          = (goto WSleep (set_fail (proxy_fail_counter w + 1) w),
             print (T_exception (name w) AttributeError)
               (set_RESULTS (RESULTS s ++ (Result_of_dict <$> good))
                  (send (thread_request i w) s)))) as ->; [|done].
  unfold run_step. rewrite Hat.
  unfold run_try_fetch, bind, or_raise, on_state, on_thread, modify, read,
    ret, raise.
  simpl. rewrite Hst, (not_429_after_raise_for_status _ Hst).
  rewrite Hdata. simpl. rewrite append_results_bad_item by done. done.
Qed.

(** *** Ctrl-C *)

Lemma interrupts_snoc evs e :
  interrupts (evs ++ [e])
  = (interrupts evs
     + match e with EvMain _ true => 1 | _ => 0 end)%nat.
Proof.
  unfold interrupts. rewrite List.filter_app, length_app. simpl.
  destruct e as [o [|]|i o]; simpl; lia.
Qed.

Lemma step_counter_inv args e n s :
  counter_inv n s →
  counter_inv (n + match e with EvMain _ true => 1 | _ => 0 end) (step args e s).
Proof.
  unfold counter_inv. intros Hinv. destruct e as [o interrupt|i o]; simpl.
  - unfold main_step. destruct (MAIN s) eqn:Hmain; simpl.
    + destruct (search_grows o (Some (keyword args))
                  (Some (default 1 (page args))) s) as [_ _ _ _ _ _]. lia.
    + destruct (has_live_threads s); simpl; [|done].
      destruct (c =? 2) eqn:Hc; simpl; [|destruct interrupt; lia].
      apply Z.eqb_eq in Hc. destruct interrupt; lia.
    + destruct interrupt; simpl; lia.
    + by rewrite Hmain.
    + rewrite Hmain. lia.
  - destruct (thread_step_main i o s) as [-> _].
    destruct (MAIN s); try done; lia.
Qed.

Lemma exec_counter_inv args evs proxies :
  counter_inv (interrupts evs) (exec args evs (initial proxies)).
Proof.
  induction evs as [|e evs IH] using rev_ind; [done|].
  rewrite exec_snoc, interrupts_snoc. by apply step_counter_inv.
Qed.

Lemma run_rel_kill i w s w' s' :
  run_rel i w s w' s' → kill_received w' = kill_received w.
Proof. by destruct 1. Qed.

Lemma exec_no_interrupt_kill args evs : ∀ s,
  interrupts evs = 0%nat →
  Forall (λ w, kill_received w = false) (THREADS s) →
  Forall (λ w, kill_received w = false) (THREADS (exec args evs s)).
Proof.
  induction evs as [|e evs IH]; intros s Hnone Hall; [done|].
  rewrite exec_cons. apply IH.
  { unfold interrupts in *. simpl in Hnone.
    destruct e as [o [|]|i o]; simpl in Hnone; [done|done|done]. }
  destruct e as [o interrupt|i o]; simpl.
  - assert (interrupt = false) as ->.
    { unfold interrupts in Hnone. simpl in Hnone. by destruct interrupt. }
    unfold main_step. destruct (MAIN s) eqn:Hmain; simpl; try done.
    + destruct (search_grows o (Some (keyword args))
                  (Some (default 1 (page args))) s)
        as [_ _ _ (T & -> & HT) _ _].
      apply Forall_app. split; [done|].
      eapply Forall_impl; [exact HT|]. by intros w (? & ? & ? & ? & -> & _).
    + destruct (has_live_threads s); [destruct (c =? 2)|]; done.
  - destruct (THREADS s !! i) as [w|] eqn:Hw.
    + destruct (thread_step_rel i o s w Hw) as (w' & s' & Hrel & ->).
      simpl. apply Forall_insert; [done|].
      rewrite (run_rel_kill _ _ _ _ _ Hrel).
      by eapply (Forall_lookup_1 _ _ _ _ Hall).
    + by rewrite thread_step_absent.
Qed.

(** X5.  [main] leaves through [bye] only after Ctrl-C has arrived at
    least twice: a run that ends in the forced exit holds two steps of
    [main] in which [join] was interrupted. *)
Theorem forced_exit_takes_two_interrupts args proxies evs :
  MAIN (exec args evs (initial proxies)) = MExited →
  (2 ≤ interrupts evs)%nat.
Proof.
  intros Hexit. pose proof (exec_counter_inv args evs proxies) as Hinv.
  unfold counter_inv in Hinv. by rewrite Hexit in Hinv.
Qed.

(** X6.  Only Ctrl-C sets [kill_received]: in a run in which no Ctrl-C
    arrives, no thread ever has its flag set. *)
Theorem no_interrupt_sets_no_flag args proxies evs :
  interrupts evs = 0%nat →
  Forall (λ w, kill_received w = false)
    (THREADS (exec args evs (initial proxies))).
Proof. intros Hnone. by apply exec_no_interrupt_kill. Qed.

End Steps.

(** ** What [search] does to the state *)

Section Dispatched.
Context `{PyRuntime}.

Lemma spawn_threads_num q qpt last_page lp range tcp s :
  py_num last_page = Some lp →
  spawn_threads q qpt last_page range tcp s =
  ({| PROXIES := PROXIES s;
      THREADS := THREADS s
                 ++ (thread_of_range q <$> thread_ranges qpt lp range tcp);
      RESULTS := RESULTS s;
      STDOUT := STDOUT s
                ++ (line_of_range <$> thread_ranges qpt lp range tcp);
      NET := NET s; OUTFILE := OUTFILE s; MAIN := MAIN s |}, inr tt).
Proof.
  intros Hlp. revert tcp s. induction range as [|i range IH]; intros tcp s.
  - simpl. rewrite !app_nil_r. by destruct s.
  - cbn [spawn_threads thread_ranges]. rewrite Hlp. cbn [or_raise].
    unfold bind at 1. cbn [ret]. unfold bind at 1. cbn [modify].
    unfold bind at 1. cbn [modify]. rewrite IH. simpl.
    by rewrite <- !app_assoc.
Qed.

Lemma spawn_threads_not_num q qpt last_page i range tcp s :
  py_num last_page = None →
  spawn_threads q qpt last_page (i :: range) tcp s = (s, inl TypeError).
Proof. intros Hlp. cbn [spawn_threads]. by rewrite Hlp. Qed.

Lemma dispatched_refl q range s : dispatched q range s s.
Proof.
  split_and!; try done; [exists []; by rewrite app_nil_r|by left].
Qed.

Lemma dispatched_print q range l s s' :
  dispatched q range s s' → dispatched q range s (print l s').
Proof. by intros (? & ? & ? & ? & ? & ?). Qed.

Lemma dispatched_append_results q range items R e s s' :
  append_results items (RESULTS s') = (R, e) →
  dispatched q range s s' → dispatched q range s (set_RESULTS R s').
Proof.
  intros (R'' & ->)%append_results_extends (? & ? & ? & ? & (R0 & HR) & ?).
  split_and!; try done. exists (R0 ++ R''). simpl.
  by rewrite HR, <- app_assoc.
Qed.

Lemma dispatched_spawn_threads q qpt last_page i range tcp s0 s s' r :
  spawn_threads q qpt last_page (i :: range) tcp s = (s', r) →
  THREADS s = THREADS s0 → dispatched q (i :: range) s0 s →
  dispatched q (i :: range) s0 s'.
Proof.
  intros Hspawn HT (? & ? & ? & ? & ? & _).
  destruct (py_num last_page) as [lp|] eqn:Hlp.
  - rewrite (spawn_threads_num _ _ _ lp) in Hspawn by done.
    injection Hspawn as <- _. split_and!; try done. right.
    exists qpt, lp, tcp. simpl. by rewrite HT.
  - rewrite spawn_threads_not_num in Hspawn by done.
    injection Hspawn as <- _. split_and!; try done. by left.
Qed.

Lemma bind_inv {Σ A B} (m : py Σ A) (k : A → py Σ B) s s' r :
  bind m k s = (s', r) →
  (∃ e, m s = (s', inl e) ∧ r = inl e)
  ∨ (∃ s1 a, m s = (s1, inr a) ∧ k a s1 = (s', r)).
Proof.
  unfold bind. destruct (m s) as [s1 [e|a]].
  - intros [= <- <-]. left. by exists e.
  - intros Hk. right. by exists s1, a.
Qed.

(** One statement of a block: either it raises, or the block goes on. *)
Ltac py_step H :=
  let Hm := fresh "Hm" in
  apply bind_inv in H as [(? & Hm & ->)|(? & ? & Hm & H)];
  [ unfold or_raise, of_sum, ret, raise, modify, read in Hm;
    repeat case_match; simplify_eq
  | revert H;
    unfold or_raise, of_sum, ret, raise, modify, read in Hm;
    repeat case_match; simplify_eq; intros H ].

Ltac dispatched_done :=
  repeat first
    [ apply dispatched_refl
    | apply dispatched_print
    | eapply dispatched_spawn_threads; [eassumption|done|]
    | eapply dispatched_append_results; [eassumption|] ].

Lemma search_content_dispatched q content s s' r :
  search_content q content s = (s', r) →
  dispatched q (seq 0 NUMBER_OF_THREADS) s s'.
Proof.
  unfold search_content. intros Hc.
  py_step Hc; try solve [dispatched_done].
  1: { unfold ret in Hc. simplify_eq. dispatched_done. }
  all: repeat (py_step Hc; try solve [dispatched_done]).
  all: unfold raise, modify in Hc; simplify_eq; dispatched_done.
Qed.

(** What a call of [search] whose arguments pass the two tests does after
    it has sent its request, whatever the response. *)
Lemma search_dispatched o q page s :
  q ≠ "" → 0 < page →
  dispatched q (seq 0 NUMBER_OF_THREADS)
    (send (first_request q page) s) (search o (Some q) (Some page) s).
Proof.
  intros Hq Hpage. unfold search.
  destruct (search_try o (Some q) (Some page) s) as [s' r] eqn:Hs.
  assert (dispatched q (seq 0 NUMBER_OF_THREADS)
            (send (first_request q page) s) s') as Hd.
  { revert Hs. unfold search_try. cbn [or_raise]. unfold bind at 1.
    cbn [ret]. rewrite (length_nonempty _ Hq). unfold bind at 1. cbn [ret].
    replace (page <=? 0) with false by (symmetry; apply Z.leb_gt; lia).
    unfold bind at 1. cbn [modify].
    destruct o as [|st body]; [intros [= <- _]; apply dispatched_refl|].
    destruct (raise_for_status st); [intros [= <- _]; apply dispatched_refl|].
    destruct (int_is st 429); [intros [= <- _]; apply dispatched_refl|].
    destruct body as [content|]; [|intros [= <- _]; apply dispatched_refl].
    cbn [or_raise]. unfold bind at 1. cbn [ret].
    apply search_content_dispatched. }
  destruct r as [[]|[]]; try done; by apply dispatched_print.
Qed.

Lemma thread_ranges_names qpt lp range tcp :
  (λ r, r.1) <$> thread_ranges qpt lp range tcp = range.
Proof.
  revert tcp. induction range as [|i range IH]; intros tcp; [done|].
  simpl. by rewrite IH.
Qed.

(** X7.  A call of [search] with a query and a page that pass its tests
    sends exactly one request, for that query and page and through no
    proxy, whatever the answer: it never asks again. *)
Theorem search_sends_one_request o q page s :
  q ≠ "" → 0 < page →
  NET (search o (Some q) (Some page) s) = NET s ++ [first_request q page].
Proof.
  intros Hq Hpage.
  by destruct (search_dispatched o q page s Hq Hpage) as (_ & -> & _).
Qed.

End Dispatched.

(** ** The first response *)

Section FirstResponse.
Context `{PyRuntime}.

(** A call of [search] whose arguments fail one of the two tests only
    prints. *)
Lemma search_invalid o q page s :
  (∀ q' p, q = Some q' → page = Some p → q' ≠ "" → 0 < p → False) →
  search o q page s = print L_no_query s
  ∨ search o q page s = print L_invalid_page s.
Proof.
  intros Hbad.
  destruct q as [q|]; [|left; reflexivity].
  destruct (decide (q = "")) as [->|Hq]; [left; reflexivity|].
  right.
  assert (search_try o (Some q) page s = (s, inl InvalidPageException))
    as Htry.
  { unfold search_try; cbn [or_raise]. unfold bind at 1; cbn [ret].
    rewrite (length_nonempty _ Hq).
    destruct page as [p|]; [|done].
    cbn [or_raise]. unfold bind at 1; cbn [ret].
    destruct (p <=? 0) eqn:Hp; [done|].
    apply Z.leb_gt in Hp. by destruct (Hbad q p). }
  unfold search. by rewrite Htry.
Qed.

Lemma valid_or_not (q : option string) (page : option Z) :
  (∃ q' p, q = Some q' ∧ page = Some p ∧ q' ≠ "" ∧ 0 < p)
  ∨ (∀ q' p, q = Some q' → page = Some p → q' ≠ "" → 0 < p → False).
Proof.
  destruct q as [q'|]; [|by right].
  destruct page as [p|]; [|by right].
  destruct (decide (q' = "")) as [->|Hq]; [right; by intros ? ? [= <-]|].
  destruct (decide (0 < p)) as [Hp|Hp];
    [left; by exists q', p|right; by intros ? ? [= <-] [= <-]].
Qed.

(** X8.  A call of [search] starts either no thread at all or all
    [NUMBER_OF_THREADS] of them, named 0 to 4 in the order of [THREADS],
    each with the query of the call, its flag not set, and not yet
    running: the loop that starts them can only fail before its first
    thread. *)
Theorem search_starts_no_thread_or_all o q page s :
  ∃ T, THREADS (search o q page s) = THREADS s ++ T
       ∧ (T = []
          ∨ (name <$> T = seq 0 NUMBER_OF_THREADS
             ∧ Forall (λ w, at_ w = WStart ∧ kill_received w = false
                            ∧ q = Some (query w)) T)).
Proof.
  destruct (valid_or_not q page) as [(q' & p & -> & -> & Hq & Hp)|Hbad].
  - destruct (search_dispatched o q' p s Hq Hp)
      as (_ & _ & _ & _ & _ & [HT|(qpt & lp & tcp & HT)]).
    + exists []. rewrite HT. simpl. by rewrite app_nil_r; auto.
    + eexists. split; [exact HT|]. right. split.
      * rewrite <- list_fmap_compose.
        rewrite <- (thread_ranges_names qpt lp (seq 0 NUMBER_OF_THREADS) tcp)
          at 2.
        by apply list_fmap_ext.
      * apply Forall_fmap, Forall_forall. by intros r _.
  - exists []. rewrite app_nil_r.
    by destruct (search_invalid o q page s Hbad) as [-> | ->]; auto.
Qed.

(** X9.  When the first response has no ["last_page"], the items of its
    ["data"] are appended to [RESULTS] all the same, before [int(last_page)]
    raises [TypeError]: no thread is started, and [search] prints the
    exception and returns. *)
Theorem missing_last_page_keeps_first_page status_code d total items
    q page s :
  q ≠ "" → 0 < page → raise_for_status status_code = false →
  d !! "total" = Some (JNum total) →
  d !! "last_page" = None →
  d !! "data" = Some (JArr (JObj <$> items)) →
  let s' := search (Response status_code (Some (JObj d))) (Some q)
              (Some page) s in
  RESULTS s' = RESULTS s ++ (Result_of_dict <$> items)
  ∧ THREADS s' = THREADS s
  ∧ last (STDOUT s') = Some (L_exception TypeError).
Proof.
  intros Hq Hpage Hst Htotal Hlp Hdata s'. subst s'. unfold search.
  rewrite search_try_sent by done.
  unfold search_content, bind, or_raise, of_sum, modify, read, ret, raise.
  cbn [py_get]. rewrite Htotal, Hlp, Hdata.
  cbn -[spawn_threads append_results thread_ranges NUMBER_OF_THREADS
        ceil_div].
  rewrite append_results_dicts.
  cbn -[spawn_threads append_results thread_ranges NUMBER_OF_THREADS
        ceil_div].
  split_and!; [done..|]. by rewrite last_snoc.
Qed.

(** X10.  When the first response has no ["data"], [for r in data] raises
    [TypeError] at once: nothing is appended to [RESULTS], no thread is
    started, and [search] prints the exception and returns. *)
Theorem missing_data_stops_the_dispatch status_code d total q page s :
  q ≠ "" → 0 < page → raise_for_status status_code = false →
  d !! "total" = Some (JNum total) →
  d !! "data" = None →
  search (Response status_code (Some (JObj d))) (Some q) (Some page) s
  = print (L_exception TypeError) (send (first_request q page) s).
Proof.
  intros Hq Hpage Hst Htotal Hdata. unfold search.
  rewrite search_try_sent by done.
  unfold search_content, bind, or_raise, of_sum, modify, read, ret, raise.
  cbn [py_get]. rewrite Htotal, Hdata. done.
Qed.

End FirstResponse.

(** ** The exported file *)

Section ExportFile.

Lemma Result_of_dict_of_Result r d :
  dict_of_Result r = JObj d → Result_of_dict d = r.
Proof.
  intros [= <-]. destruct r as [t l e]. unfold Result_of_dict. simpl.
  rewrite lookup_insert_eq.
  rewrite lookup_insert_ne, lookup_insert_eq by done.
  rewrite !lookup_insert_ne, lookup_insert_eq by done. done.
Qed.

Lemma append_results_exported (R R0 : list Result) :
  append_results (dict_of_Result <$> R) R0 = (R0 ++ R, None).
Proof.
  revert R0. induction R as [|r R IH]; intros R0; simpl.
  - by rewrite app_nil_r.
  - rewrite IH, <- app_assoc. simpl.
    by rewrite (Result_of_dict_of_Result r _ eq_refl).
Qed.

(** X11.  What [export] writes can be read back: taking ["results"] from
    the exported document and running the program's own parsing loop over
    it gives back [RESULTS], item for item and in the same order. *)
Theorem export_round_trip (R : list Result) :
  ∃ data items,
    py_get (export_doc R) "results" = Some data
    ∧ py_iter data = Some items
    ∧ length items = length R
    ∧ append_results items [] = (R, None).
Proof.
  exists (JArr (dict_of_Result <$> R)), (dict_of_Result <$> R).
  split_and!.
  - unfold export_doc, py_get. by rewrite lookup_insert_eq.
  - done.
  - by rewrite length_fmap.
  - by rewrite append_results_exported.
Qed.

End ExportFile.

(** ** The empty pool *)

Section EmptyPool.
Context `{PyRuntime}.

Lemma run_rel_stuck i w s w' s' :
  run_rel i w s w' s' → PROXIES s = [] → stuck w →
  stuck w' ∧ PROXIES s' = [] ∧ RESULTS s' = RESULTS s ∧ NET s' = NET s.
Proof.
  unfold stuck. destruct 1; simpl; intros Hempty [Hat|Hat];
    try congruence; try (split_and!; auto; fail).
  all: rewrite Hempty in *; done.
Qed.

Lemma step_empty_pool_inv R N args e s :
  MAIN s ≠ MStart → empty_pool_inv R N s → empty_pool_inv R N (step args e s).
Proof.
  intros Hmain (Hempty & Hstuck & HR & HN).
  destruct (step_cases args e s Hmain)
    as [_ [(i & w & w' & s' & Hw & Hrel & ->)
          |(HP & HRES & HNET & [HT|HT])]].
  - assert (stuck w) as Hs by (by eapply (Forall_lookup_1 _ _ _ _ Hstuck)).
    destruct (run_rel_stuck _ _ _ _ _ Hrel Hempty Hs) as (? & ? & ? & ?).
    split_and!; simpl; try congruence. by apply Forall_insert.
  - unfold empty_pool_inv. by rewrite HP, HT, HRES, HNET.
  - unfold empty_pool_inv. rewrite HP, HT, HRES, HNET. split_and!; try done.
    apply Forall_fmap. eapply Forall_impl; [exact Hstuck|]. done.
Qed.

(** X12.  With [PROXIES] empty, as the module leaves it, no thread gets
    past its first [PROXIES.pop()]: whatever the first response and the
    run, every thread is still to start or has ended on the [IndexError],
    no thread sends a request, and [RESULTS] holds what [search] put
    there. *)
Theorem empty_pool_stops_every_thread args o interrupt evs :
  let s1 := step args (EvMain o interrupt) (initial []) in
  let s := exec args (EvMain o interrupt :: evs) (initial []) in
  PROXIES s = []
  ∧ Forall (λ w, at_ w = WStart ∨ at_ w = WCrashed) (THREADS s)
  ∧ thread_pages (NET s) = []
  ∧ NET s = NET s1
  ∧ RESULTS s = RESULTS s1.
Proof.
  intros s1 s.
  destruct (search_grows o (Some (keyword args))
              (Some (default 1 (page args))) (initial []))
    as [HP _ _ (T & HT & Hspawned) _ (N & HN & HNone)].
  assert (PROXIES s1 = []) as HP1 by exact HP.
  assert (THREADS s1 = T) as HT1 by exact HT.
  assert (NET s1 = N) as HN1 by exact HN.
  assert (empty_pool_inv (RESULTS s1) (NET s1) s1) as Hinv1.
  { split_and!; try done. rewrite HT1.
    eapply Forall_impl; [exact Hspawned|].
    intros w (? & ? & ? & ? & -> & _). by left. }
  assert (empty_pool_inv (RESULTS s1) (NET s1) s) as (HPs & Hstuck & HR & HN').
  { subst s. rewrite exec_cons. fold s1.
    by apply (exec_invariant _ args (step_empty_pool_inv _ _ args)). }
  split_and!; try done. rewrite HN', HN1.
  by apply thread_pages_dispatcher.
Qed.

End EmptyPool.

(** ** Who holds a proxy *)

Section Exclusive.
Context `{PyRuntime}.

Lemma held_proxies_insert T i w w' :
  T !! i = Some w →
  ∃ X, held_proxies T ≡ₚ in_hand w ++ X
       ∧ held_proxies (<[i := w']> T) ≡ₚ in_hand w' ++ X.
Proof.
  unfold held_proxies. revert i.
  induction T as [|x T IH]; intros [|i]; csimpl; try done.
  - intros [= ->]. by exists (T ≫= in_hand).
  - intros Hw. destruct (IH i Hw) as (X & HX & HX').
    exists (in_hand x ++ X). rewrite HX, HX'.
    split; apply Permutation_app_swap_app.
Qed.

Lemma held_proxies_spawned o T :
  Forall (spawned_by o) T → held_proxies T = [].
Proof.
  unfold held_proxies. induction 1 as [|w T Hw _ IH]; [done|]. csimpl.
  rewrite IH. destruct Hw as (? & ? & ? & ? & -> & _). done.
Qed.

Lemma held_proxies_set_kill T :
  held_proxies (set_kill true <$> T) = held_proxies T.
Proof.
  unfold held_proxies. induction T as [|w T IH]; [done|]. csimpl.
  by rewrite IH.
Qed.

Lemma held_proxies_app T T' :
  held_proxies (T ++ T') = held_proxies T ++ held_proxies T'.
Proof. unfold held_proxies. apply bind_app. Qed.

(** A step of a thread creates no proxy: those of the pool and of the
    thread after the step are among those before it. *)
Lemma run_rel_in_hand i w s w' s' :
  run_rel i w s w' s' →
  PROXIES s' ++ in_hand w' ⊆+ PROXIES s ++ in_hand w.
Proof.
  unfold in_hand, holds_proxy.
  destruct 1; simpl;
    repeat match goal with
           | H : at_ _ = _ |- _ => rewrite H in *
           | H : list_pop _ = Some _ |- _ => apply list_pop_Some in H as ->
           end;
    simpl; rewrite ?app_nil_r; try done.
  by apply submseteq_inserts_r.
Qed.

Lemma step_all_proxies args e s :
  all_proxies (step args e s) ⊆+ all_proxies s.
Proof.
  unfold all_proxies. destruct e as [o interrupt|i o]; simpl.
  - destruct (main_step_effect args o interrupt s)
      as (-> & _ & _ & [(T & -> & HT)| ->]).
    + by rewrite held_proxies_app, (held_proxies_spawned _ _ HT), app_nil_r.
    + by rewrite held_proxies_set_kill.
  - destruct (THREADS s !! i) as [w|] eqn:Hw.
    + destruct (thread_step_rel i o s w Hw) as (w' & s' & Hrel & ->).
      simpl.
      destruct (held_proxies_insert (THREADS s) i w w' Hw)
        as (X & HX & HX').
      rewrite HX, HX', !(assoc (++)). apply submseteq_skips_r.
      pose proof (run_rel_frame _ _ _ _ _ Hrel) as _.
      by apply (run_rel_in_hand _ _ _ _ _ Hrel).
    + by rewrite thread_step_absent.
Qed.

Lemma exec_all_proxies args evs s :
  all_proxies (exec args evs s) ⊆+ all_proxies s.
Proof.
  revert s. induction evs as [|e evs IH]; intros s; [done|].
  rewrite exec_cons. etrans; [apply IH|]. apply step_all_proxies.
Qed.

(** X13.  No proxy is created or duplicated: at every point of a run, the
    proxies in the pool together with those in the hands of the threads
    are among the proxies the run started with, each at most as often as
    it was there. *)
Theorem proxies_come_from_the_pool args evs proxies :
  let s := exec args evs (initial proxies) in
  PROXIES s ++ held_proxies (THREADS s) ⊆+ proxies.
Proof.
  intros s.
  pose proof (exec_all_proxies args evs (initial proxies)) as Hall.
  unfold all_proxies in Hall at 2. simpl in Hall.
  by rewrite app_nil_r in Hall.
Qed.

(** X14.  If the proxies are different from each other at the start, no
    proxy is ever in the pool and in the hands of a thread, or in the
    hands of two threads, or twice in the pool, at once. *)
Theorem proxies_are_exclusive args evs proxies :
  NoDup proxies →
  NoDup (PROXIES (exec args evs (initial proxies))
         ++ held_proxies (THREADS (exec args evs (initial proxies)))).
Proof.
  intros Hnodup.
  pose proof (exec_all_proxies args evs (initial proxies)) as Hall.
  unfold all_proxies in Hall. simpl in Hall. rewrite app_nil_r in Hall.
  apply submseteq_Permutation in Hall as (k & Hk). rewrite Hk in Hnodup.
  by apply NoDup_app in Hnodup as (? & _).
Qed.

(** *** The proxies of the requests *)

Lemma in_hand_elem w p :
  holds_proxy w = true → proxy w = Some p → p ∈ in_hand w.
Proof. unfold in_hand. intros -> ->. simpl. set_solver. Qed.

Lemma held_proxies_lookup T i w p :
  T !! i = Some w → p ∈ in_hand w → p ∈ held_proxies T.
Proof.
  intros Hw Hp. unfold held_proxies. apply list_elem_of_bind.
  exists w. split; [done|]. by eapply list_elem_of_lookup_2.
Qed.

Lemma step_via_proxies args proxies e s :
  all_proxies s ⊆+ proxies →
  Forall proxy_bound (THREADS s) →
  Forall (via_proxies proxies) (NET s) →
  Forall (via_proxies proxies) (NET (step args e s)).
Proof.
  intros Hsub Hbound Hvia. destruct e as [o interrupt|i o]; simpl.
  - unfold main_step. destruct (MAIN s) eqn:Hmain; simpl; try done.
    + destruct (valid_or_not (Some (keyword args))
                  (Some (default 1 (page args))))
        as [(q' & p & [= <-] & [= <-] & Hq & Hp)|Hbad].
      * destruct (search_dispatched o _ _ s Hq Hp) as (_ & -> & _).
        simpl. apply Forall_app. split; [done|]. by apply Forall_singleton.
      * by destruct (search_invalid o _ _ s Hbad) as [-> | ->].
    + destruct (has_live_threads s); [destruct (c =? 2)|]; done.
    + by destruct interrupt.
  - destruct (THREADS s !! i) as [w|] eqn:Hw.
    + destruct (thread_step_rel i o s w Hw) as (w' & s' & Hrel & ->).
      simpl.
      destruct (run_rel_NET _ _ _ _ _ Hrel) as [-> | (Hat & _ & ->)];
        [done|].
      apply Forall_app. split; [done|]. apply Forall_singleton.
      unfold via_proxies. simpl.
      assert (holds_proxy w = true) as Hholds
        by (unfold holds_proxy; by rewrite Hat).
      destruct (Forall_lookup_1 _ _ _ _ Hbound Hw Hholds) as [p Hp].
      exists p. split; [done|].
      apply (elem_of_submseteq (all_proxies s)); [|done].
      unfold all_proxies. apply elem_of_app. right.
      eapply held_proxies_lookup; [done|]. by apply in_hand_elem.
    + by rewrite thread_step_absent.
Qed.

(** X15.  Every request of a thread goes through a proxy, and that proxy
    is one of those the run started with; the request of [search] goes
    through none. *)
Theorem thread_requests_go_through_proxies args evs proxies :
  Forall (via_proxies proxies) (NET (exec args evs (initial proxies))).
Proof.
  induction evs as [|e evs IH] using rev_ind; [by constructor|].
  rewrite exec_snoc. apply step_via_proxies; [|by apply reachable_proxy_bound|done].
  etrans; [apply exec_all_proxies|]. unfold all_proxies. simpl.
  by rewrite app_nil_r.
Qed.

End Exclusive.

(** ** A thread whose requests fail *)

Section Failing.
Context `{PyRuntime}.

Lemma run_step_fetch_fails i o w s :
  fails o = true → at_ w = WFetch →
  (run_step i o w s).1
  = goto WSleep (set_fail (proxy_fail_counter w + 1) w)
  ∧ PROXIES (run_step i o w s).2 = PROXIES s.
Proof.
  intros Hfails Hat. unfold run_step. rewrite Hat.
  destruct o as [|st body]; simpl in Hfails; [done|].
  unfold run_try_fetch, bind, on_state, modify, read, raise. simpl.
  by rewrite Hfails.
Qed.

Lemma run_step_pops_left i o w s :
  fails o = true →
  (length (PROXIES s) + pops_left (run_step i o w s).1
   ≤ length (PROXIES (run_step i o w s).2) + pops_left w)%nat.
Proof.
  intros Hfails. destruct (decide (at_ w = WFetch)) as [Hat|Hat].
  - destruct (run_step_fetch_fails i o w s Hfails Hat) as [-> ->].
    unfold pops_left. simpl. rewrite Hat. unfold PROXY_FAIL_LIMIT.
    repeat case_match; lia.
  - pose proof (run_step_rel i o w s) as Hrel.
    destruct (run_step i o w s) as [w' s']. simpl in *.
    unfold pops_left, PROXY_FAIL_LIMIT in *.
    destruct Hrel; simpl;
      repeat match goal with
             | H : at_ _ = _ |- _ => rewrite H in *
             | H : list_pop _ = Some _ |- _ => apply list_pop_Some in H as ->
             end;
      rewrite ?length_app; simpl; try done; repeat case_match;
      unfold PROXY_FAIL_LIMIT in *; lia.
Qed.

Lemma exec_pops_left args i os : ∀ s w,
  THREADS s !! i = Some w → Forall (λ o, fails o = true) os →
  ∃ w', THREADS (exec args (EvThread i <$> os) s) !! i = Some w'
        ∧ (length (PROXIES s) + pops_left w'
           ≤ length (PROXIES (exec args (EvThread i <$> os) s))
             + pops_left w)%nat.
Proof.
  induction os as [|o os IH]; intros s w Hw Hfail.
  { exists w. split; [done|]. simpl. lia. }
  apply Forall_cons in Hfail as [Ho Hos]. rewrite fmap_cons, exec_cons.
  cbn [step].
  pose proof (run_step_pops_left i o w s Ho) as Hstep.
  assert (thread_step i o s
          = set_THREADS (<[i := (run_step i o w s).1]> (THREADS s))
              (run_step i o w s).2) as Heq.
  { unfold thread_step. rewrite Hw.
    pose proof (run_step_rel i o w s) as Hrel.
    destruct (run_step i o w s) as [w1 s1]. simpl in *.
    by destruct (run_rel_frame _ _ _ _ _ Hrel) as (-> & _). }
  destruct (IH (thread_step i o s) (run_step i o w s).1) as (w' & Hw' & Hle);
    [|done|].
  { rewrite Heq. simpl. apply list_lookup_insert_eq.
    by eapply lookup_lt_Some. }
  exists w'. split; [done|].
  assert (PROXIES (thread_step i o s) = PROXIES (run_step i o w s).2) as HP
    by (by rewrite Heq).
  rewrite HP in Hle. lia.
Qed.

(** X16.  A thread whose requests all fail (the request raises, or the
    status is 4xx or 5xx) takes at most two proxies from the pool, however
    many steps it takes: one at its start and at most one when
    [proxy_fail_counter] reaches [PROXY_FAIL_LIMIT]. *)
Theorem failing_thread_takes_at_most_two_proxies args s i w os :
  THREADS s !! i = Some w → at_ w = WStart →
  Forall (λ o, fails o = true) os →
  (length (PROXIES s)
   ≤ length (PROXIES (exec args (EvThread i <$> os) s)) + 2)%nat.
Proof.
  intros Hw Hat Hfail.
  destruct (exec_pops_left args i os s w Hw Hfail) as (w' & _ & Hle).
  unfold pops_left in Hle at 2. rewrite Hat in Hle. lia.
Qed.

End Failing.

(** ** The pages the ranges cover *)

Section Cover.
Context `{PyRuntime}.




End Cover.

(** ** The pages of one thread *)

Section Walk.
Context `{PyRuntime}.

Lemma pages_by_app i N N' :
  pages_by i (N ++ N') = pages_by i N ++ pages_by i N'.
Proof. unfold pages_by. by rewrite requests_by_app, fmap_app. Qed.

Lemma pages_by_own i w : pages_by i [thread_request i w] = [counter w].
Proof. unfold pages_by. by rewrite requests_by_own. Qed.

Lemma pages_by_other i j w : j ≠ i → pages_by i [thread_request j w] = [].
Proof. intros Hne. unfold pages_by. by rewrite requests_by_other. Qed.

Lemma pages_by_dispatcher i N :
  Forall (λ r, req_by r = None) N → pages_by i N = [].
Proof. intros HN. unfold pages_by. by rewrite requests_by_dispatcher. Qed.

Lemma StronglySorted_snoc (l : list Z) x :
  StronglySorted Z.le l → Forall (λ p, p ≤ x) l →
  StronglySorted Z.le (l ++ [x]).
Proof.
  induction 1 as [|y l Hl IH Hy]; intros Hx; simpl.
  - repeat constructor.
  - apply Forall_cons in Hx as [Hyx Hlx]. constructor; [by apply IH|].
    apply Forall_app. split; [done|]. by apply Forall_singleton.
Qed.

Lemma run_rel_walked i w s w' s' :
  run_rel i w s w' s' →
  walked (pages_by i (NET s)) w → walked (pages_by i (NET s')) w'.
Proof.
  unfold walked.
  destruct 1 as [p P Hat Hpop|Hat Hpop|Hat Hkill Hlt|Hat Hexit|Hat Hne
                |p P Hat Hlim Hpop|Hat Hlim Hpop|R n Hat|R l Hat|Hat|Hat
                |Hdead];
    simpl; intros (Hstart & Hcov & Hsorted & Hdone);
    rewrite ?pages_by_app, ?pages_by_own;
    try (destruct Hcov as [Hcov Hle]; [congruence|]).
  - (* first pop *)
    rewrite (Hstart Hat). split_and!; try done.
    + intros _. split; [intros p'; lia|constructor].
    + constructor.
    + by intros _ [|].
  - (* crash *)
    rewrite (Hstart Hat). split_and!; try done.
    + intros _. split; [intros p'; lia|constructor].
    + constructor.
    + by intros _ [|].
  - split_and!; try done. by intros _ [|].
  - split_and!; try done. intros Hk _. destruct Hexit; [congruence|done].
  - split_and!; try done. by intros _ [|].
  - split_and!; try done. by intros _ [|].
  - split_and!; try done. by intros _ [|].
  - (* success *)
    split_and!; try done.
    + intros _. split.
      * intros p' Hp'. apply elem_of_app.
        destruct (decide (p' = counter w)) as [->|Hne];
          [right; constructor|left; apply Hcov; lia].
      * apply Forall_app. split; [|apply Forall_singleton; lia].
        eapply Forall_impl; [exact Hle|]. simpl. intros; lia.
    + by apply StronglySorted_snoc.
    + by intros _ [|].
  - (* failure *)
    split_and!; try done.
    + intros _. split.
      * intros p' Hp'. apply elem_of_app. left. by apply Hcov.
      * apply Forall_app. split; [done|]. by apply Forall_singleton.
    + by apply StronglySorted_snoc.
    + by intros _ [|].
  - split_and!; try done. by intros _ [|].
  - split_and!; try done. intros Hk _. apply Hdone; auto.
  - done.
Qed.

Lemma walked_spawned o w : spawned_by o w → walked [] w.
Proof.
  intros (? & ? & ? & ? & -> & _). unfold walked. simpl.
  split_and!; [done|by intros []|constructor|by intros _ [|]].
Qed.

Lemma walked_set_kill pages w : walked pages w → walked pages (set_kill true w).
Proof. unfold walked. simpl. intros (? & ? & ? & ?). done. Qed.

Lemma step_walk_inv args e s : walk_inv s → walk_inv (step args e s).
Proof.
  intros Hinv i. specialize (Hinv i) as Hi.
  destruct e as [o interrupt|j o]; simpl.
  - destruct (main_step_effect args o interrupt s)
      as (_ & _ & (N & -> & HN) & [(T & -> & HT)| ->]);
      rewrite pages_by_app, (pages_by_dispatcher _ _ HN), app_nil_r.
    + destruct (THREADS s !! i) as [w|] eqn:Hw.
      * by rewrite (lookup_app_l_Some _ _ _ _ Hw).
      * rewrite lookup_app_r by (by apply lookup_ge_None).
        destruct (T !! _) as [w|] eqn:HTi; [|done].
        rewrite Hi. eapply walked_spawned.
        by eapply (Forall_lookup_1 _ _ _ _ HT).
    + rewrite list_lookup_fmap.
      destruct (THREADS s !! i) as [w|]; [|done]. simpl.
      by apply walked_set_kill.
  - destruct (THREADS s !! j) as [wj|] eqn:Hwj.
    + destruct (thread_step_rel j o s wj Hwj) as (w' & s' & Hrel & ->).
      simpl. destruct (decide (j = i)) as [->|Hne].
      * rewrite list_lookup_insert_eq by (by eapply lookup_lt_Some).
        rewrite Hwj in Hi. by eapply run_rel_walked.
      * rewrite list_lookup_insert_ne by done.
        destruct (run_rel_NET _ _ _ _ _ Hrel) as [-> | (_ & _ & ->)];
          [done|].
        by rewrite pages_by_app, pages_by_other, app_nil_r.
    + by rewrite thread_step_absent.
Qed.

Lemma exec_walk_inv args evs proxies :
  walk_inv (exec args evs (initial proxies)).
Proof.
  induction evs as [|e evs IH] using rev_ind; [by intros i|].
  rewrite exec_snoc. by apply step_walk_inv.
Qed.

(** X18.  A thread that has returned from [run] without its flag set has
    requested every page of its loop, from [start_page] up to, but not
    including, [end_page]: without Ctrl-C no page of the loop is left
    out, whatever failed on the way. *)
Theorem finished_thread_has_requested_its_pages args evs proxies i w p :
  THREADS (exec args evs (initial proxies)) !! i = Some w →
  at_ w = WDone → kill_received w = false →
  start_page w ≤ p < end_page w →
  p ∈ pages_by i (NET (exec args evs (initial proxies))).
Proof.
  intros Hw Hat Hkill Hp.
  pose proof (exec_walk_inv args evs proxies i) as Hwalk.
  rewrite Hw in Hwalk.
  destruct Hwalk as (_ & Hcov & _ & Hdone).
  destruct Hcov as [Hcov _]; [by rewrite Hat|].
  apply Hcov. specialize (Hdone Hkill (or_intror Hat)). lia.
Qed.

(** X19.  A thread requests its pages in increasing order: of two requests
    of the same thread the later one is never for an earlier page. *)
Theorem thread_requests_pages_in_order args evs proxies i :
  StronglySorted Z.le (pages_by i (NET (exec args evs (initial proxies)))).
Proof.
  pose proof (exec_walk_inv args evs proxies i) as Hwalk.
  destruct (THREADS _ !! i) as [w|].
  - by destruct Hwalk as (_ & _ & ? & _).
  - rewrite Hwalk. constructor.
Qed.

End Walk.

(** ** The request of [search] *)

Section Once.
Context `{PyRuntime}.

Lemma search_requests_app N N' :
  search_requests (N ++ N') = search_requests N ++ search_requests N'.
Proof. unfold search_requests. apply List.filter_app. Qed.

Lemma step_once_inv args e s : once_inv args s → once_inv args (step args e s).
Proof.
  unfold once_inv. intros Hinv.
  assert (MAIN s = MStart ∨ MAIN s ≠ MStart) as [Hstart|Hmain]
    by (destruct (MAIN s); auto).
  - rewrite Hstart in Hinv. destruct Hinv as [HN HT].
    destruct e as [o interrupt|i o]; simpl.
    + unfold main_step. rewrite Hstart. simpl.
      destruct (valid_or_not (Some (keyword args))
                  (Some (default 1 (page args))))
        as [(q' & p & [= <-] & [= <-] & Hq & Hp)|Hbad].
      * destruct (search_dispatched o _ _ s Hq Hp) as (_ & -> & _).
        simpl. rewrite HN. by right.
      * destruct (search_invalid o _ _ s Hbad) as [-> | ->];
          simpl; rewrite HN; by left.
    + rewrite thread_step_absent by (by rewrite HT). by rewrite Hstart.
  - destruct (step_cases args e s Hmain)
      as [Hmain' [(i & w & w' & s' & Hw & Hrel & Heq)|(_ & _ & HNET & _)]].
    + assert (search_requests (NET (step args e s)) = search_requests (NET s))
        as Hsame.
      { rewrite Heq. simpl.
        destruct (run_rel_NET _ _ _ _ _ Hrel) as [-> | (_ & _ & ->)];
          [done|].
        rewrite search_requests_app. simpl. by rewrite app_nil_r. }
      rewrite Hsame.
      destruct (MAIN (step args e s)), (MAIN s); done.
    + rewrite HNET. destruct (MAIN (step args e s)), (MAIN s); done.
Qed.

(** X20.  [main] calls [search] once, and [search] sends one request at
    most: at every point of a run, the requests that have gone out without
    a proxy are none, or the one request for the keyword and the page of
    the command line. *)
Theorem main_calls_search_once args evs proxies :
  let N := search_requests (NET (exec args evs (initial proxies))) in
  N = [] ∨ N = [first_request (keyword args) (default 1 (page args))].
Proof.
  assert (once_inv args (exec args evs (initial proxies))) as Hinv.
  { induction evs as [|e evs IH] using rev_ind; [by split|].
    rewrite exec_snoc. by apply step_once_inv. }
  unfold once_inv in Hinv. simpl.
  destruct (MAIN _); try done. destruct Hinv as [-> _]. by left.
Qed.

End Once.

(** ** The claims at concrete inputs *)

(** The run over four pages fetches page 2 only: pages 3 and 4 are never
    requested, although every thread has come to its end and the results
    have been exported. *)
Example four_pages_run_skips_two_pages :
  let s := exec test_args four_pages_run (initial five_proxies) in
  ((λ w, (start_page w, end_page w)) <$> THREADS s)
    = [(2, 3); (4, 4); (5, 4); (5, 4); (5, 4)]
  ∧ thread_pages (NET s) = [2]
  ∧ has_live_threads s = false
  ∧ MAIN s = MFinished
  ∧ length (RESULTS s) = 4%nat.
Proof. vm_compute. done. Qed.

(** [last_page_is_never_fetched] on the run over four pages. *)
Lemma last_page_is_never_fetched_witness :
  (page_body_dict 40 1 4 two_hits) !! "last_page" = Some (JNum 4)
  ∧ Forall (λ p, p < 4)
      (thread_pages
         (NET (exec test_args four_pages_run (initial five_proxies)))).
Proof.
  split; [reflexivity|].
  apply (last_page_is_never_fetched test_args five_proxies 200
           (page_body_dict 40 1 4 two_hits) 4 false).
  reflexivity.
Defined.

(** C2, as stated, fails: with one page in all, five threads are
    started. *)
Lemma single_page_starts_threads :
  let s := exec test_args [EvMain (first_page 1 1) false]
             (initial five_proxies) in
  length (THREADS s) = 5%nat ∧ THREADS s ≠ [].
Proof. vm_compute. done. Qed.

(** [single_page_run] on a run over one page, up to the export. *)
Lemma single_page_run_witness :
  let s := exec test_args
             (EvMain (first_page 1 1) false
                :: steps 0 GetRaises 3 ++ steps 1 GetRaises 3
                ++ steps 2 GetRaises 3 ++ steps 3 GetRaises 3
                ++ steps 4 GetRaises 3 ++ [EvMain GetRaises false])
             (initial five_proxies) in
  (keyword test_args ≠ "" ∧ 0 < default 1 (page test_args)
   ∧ raise_for_status 200 = false
   ∧ page_body_dict 40 1 1 two_hits !! "total" = Some (JNum 40)
   ∧ page_body_dict 40 1 1 two_hits !! "current_page" = Some (JNum 1)
   ∧ page_body_dict 40 1 1 two_hits !! "last_page" = Some (JNum 1)
   ∧ page_body_dict 40 1 1 two_hits !! "data"
     = Some (JArr (JObj <$> two_hits)))
  ∧ MAIN s = MFinished
  ∧ length (THREADS s) = NUMBER_OF_THREADS
  ∧ Forall (λ w, start_page w = 1 + 1 ∧ end_page w = 1) (THREADS s)
  ∧ NET s = [first_request (keyword test_args)
               (default 1 (page test_args))]
  ∧ RESULTS s = Result_of_dict <$> two_hits
  ∧ (MAIN s = MFinished →
     OUTFILE s = Some (default "results.json" (output test_args),
                       export_doc (Result_of_dict <$> two_hits))).
Proof.
  intros s. split; [repeat split; done|]. split; [reflexivity|].
  apply (single_page_run test_args five_proxies 200
           (page_body_dict 40 1 1 two_hits) 40 1 two_hits false);
    first [reflexivity | done].
Defined.

(** C3, as the code has it.  Of six proxies the five threads take one
    each; thread 0, which holds ["p6"], fails ten times in a row and
    rotates: it takes ["p1"] and drops ["p6"], which is neither in the pool
    nor in the hands of a thread any more.  Five proxies are left of
    six. *)
Theorem rotation_loses_a_proxy :
  let s0 := initial six_proxies in
  let s := exec test_args rotation_run s0 in
  (checked_out s0 + length (PROXIES s0) = 6)%nat
  ∧ (checked_out s + length (PROXIES s) = 5)%nat
  ∧ PROXIES s = []
  ∧ (proxy <$> THREADS s)
    = [Some "p1"; Some "p5"; Some "p4"; Some "p3"; Some "p2"].
Proof. vm_compute. repeat split. Qed.

(** C5, as stated, fails: after two Ctrl-C with a thread still in
    [requests.get], [main] leaves through [bye] and nothing is exported,
    although [RESULTS] holds the two hits of the first page. *)
Lemma forced_exit_skips_export :
  let s := exec test_args forced_exit_run (initial five_proxies) in
  MAIN s = MExited ∧ OUTFILE s = None
  ∧ RESULTS s = Result_of_dict <$> two_hits ∧ RESULTS s ≠ [].
Proof. vm_compute. done. Qed.

(** [export_only_when_threads_have_finished] before the last step of the
    run over four pages and of the run with two Ctrl-C. *)
Lemma export_only_when_threads_have_finished_witness :
  let s := exec test_args four_pages_threads (initial five_proxies) in
  let t := exec test_args two_interrupts (initial five_proxies) in
  (MAIN s = MWait 0 ∧ has_live_threads s = false
   ∧ MAIN t = MWait 2 ∧ has_live_threads t = true)
  ∧ OUTFILE (exec test_args four_pages_run (initial five_proxies))
    = Some ("results.json", export_doc (RESULTS s))
  ∧ MAIN (exec test_args forced_exit_run (initial five_proxies)) = MExited
  ∧ OUTFILE (exec test_args forced_exit_run (initial five_proxies)) = None.
Proof.
  intros s t.
  assert (MAIN s = MWait 0 ∧ has_live_threads s = false
          ∧ MAIN t = MWait 2 ∧ has_live_threads t = true)
    as (Hs & Hnone & Ht & Hlive) by (vm_compute; repeat split).
  split; [exact (conj Hs (conj Hnone (conj Ht Hlive)))|].
  unfold four_pages_run, forced_exit_run. rewrite !exec_snoc.
  fold s t.
  destruct (export_only_when_threads_have_finished test_args five_proxies
              four_pages_threads) as (Hexport & _).
  destruct (export_only_when_threads_have_finished test_args five_proxies
              two_interrupts) as (_ & _ & _ & Hbye).
  destruct (Hexport 0 GetRaises false Hs Hnone) as (_ & Hout & _).
  destruct (Hbye GetRaises false Ht Hlive) as (Hexit & Hnofile).
  split_and!; [exact Hout | exact Hexit | exact Hnofile].
Defined.

(** C7, as stated, fails: with an empty query and page 0 the call raises
    [NoQueryException], not [InvalidPageException]. *)
Lemma empty_query_hides_invalid_page :
  ¬ (∀ (o : fetched) (q : option string) (page : Z) (s : State),
       page < 1 →
       (search_try o q (Some page) s).2 = inl InvalidPageException).
Proof.
  intros Hall.
  specialize (Hall GetRaises (Some "") 0 (initial []) ltac:(lia)).
  discriminate Hall.
Qed.

(** [search_rejects_invalid_arguments] on an empty query and on page 0. *)
Lemma search_rejects_invalid_arguments_witness :
  (search_try GetRaises (Some "") (Some 3) (initial five_proxies)
   = (initial five_proxies, inl NoQueryException))
  ∧ (search_try GetRaises (Some "test") (Some 0) (initial five_proxies)
     = (initial five_proxies, inl InvalidPageException))
  ∧ NET (search GetRaises (Some "test") (Some 0) (initial five_proxies)) = [].
Proof.
  split; [|split].
  - apply (search_rejects_invalid_arguments GetRaises (Some "") (Some 3)
             (initial five_proxies)). by right.
  - apply (search_rejects_invalid_arguments GetRaises (Some "test") (Some 0)
             (initial five_proxies)) with (q' := "test"%string);
      [reflexivity | done | right; exists 0; split; [reflexivity | lia]].
  - apply (search_rejects_invalid_arguments GetRaises (Some "test") (Some 0)
             (initial five_proxies)) with (q' := "test"%string);
      [reflexivity | done | right; exists 0; split; [reflexivity | lia]].
Defined.

(** [search_without_total_is_silent] on the body [{}]. *)
Lemma search_without_total_is_silent_witness :
  ("test" ≠ "" ∧ 0 < 1 ∧ raise_for_status 200 = false
   ∧ (∅ : gmap string json) !! "total" = None)
  ∧ search (Response 200 (Some (JObj ∅))) (Some "test") (Some 1)
      (initial five_proxies)
    = send (first_request "test" 1) (initial five_proxies).
Proof.
  split; [repeat split; done|].
  apply (search_without_total_is_silent 200 ∅ "test" 1
           (initial five_proxies)); first [reflexivity | done].
Defined.

(** C10, as stated, fails: a first response with status 200 whose body is
    the JSON array [[]], or [null], has no key ["total"], yet
    [content.get] raises [AttributeError] on it and [search] prints the
    exception: the call is not silent. *)
Lemma body_without_get_is_reported :
  let s := initial five_proxies in
  let o := Response 200 (Some (JArr [])) in
  raise_for_status 200 = false
  ∧ search_try o (Some "test") (Some 1) s
    = (send (first_request "test" 1) s, inl AttributeError)
  ∧ search o (Some "test") (Some 1) s
    = print (L_exception AttributeError) (send (first_request "test" 1) s)
  ∧ STDOUT (search o (Some "test") (Some 1) s) = [L_exception AttributeError]
  ∧ STDOUT (search o (Some "test") (Some 1) s) ≠ STDOUT s
  ∧ search (Response 200 (Some JNull)) (Some "test") (Some 1) s
    = search o (Some "test") (Some 1) s.
Proof. vm_compute. repeat split. intros Hout. discriminate Hout. Qed.

(** [first_fetch_429_is_http_error] on the query ["test"], page 1. *)
Lemma first_fetch_429_is_http_error_witness :
  ("test" ≠ "" ∧ 0 < 1)
  ∧ search (Response 429 None) (Some "test") (Some 1) (initial five_proxies)
    = print L_http_error
        (send (first_request "test" 1) (initial five_proxies)).
Proof.
  split; [split; done|].
  apply (first_fetch_429_is_http_error None "test" 1 (initial five_proxies));
    first [reflexivity | done].
Defined.

(** [thread_429_counts_as_failure] on a thread with four failures. *)
Lemma thread_429_counts_as_failure_witness :
  at_ fetching_thread = WFetch
  ∧ proxy_fail_counter
      (run_step 3 (Response 429 None) fetching_thread (initial [])).1 = 5
  ∧ counter
      (run_step 3 (Response 429 None) fetching_thread (initial [])).1 = 8.
Proof.
  split; [reflexivity|].
  pose proof (thread_429_counts_as_failure 3 None fetching_thread
                (initial []) eq_refl) as Hstep.
  destruct (run_step 3 (Response 429 None) fetching_thread (initial []))
    as [w' s'].
  destruct Hstep as (_ & _ & Hfail & Hcounter). split; assumption.
Defined.


(** [cancelled_thread_stops] on thread 0, in [requests.get] when Ctrl-C
    arrives, and its next five steps: it sends one request at most, returns
    from [run], and the step before its return appends ["p5"], the proxy it
    held when the flag was set, to [PROXIES]. *)
Lemma cancelled_thread_stops_witness :
  (THREADS cancelled_state !! 0%nat = Some cancelled_thread
   ∧ kill_received cancelled_thread = true ∧ proxy_bound cancelled_thread)
  ∧ ∃ w', THREADS (exec test_args (steps 0 (first_page 2 11) 5)
                     cancelled_state) !! 0%nat = Some w'
          ∧ kill_received w' = true
          ∧ (length (requests_by 0
                       (NET (exec test_args (steps 0 (first_page 2 11) 5)
                               cancelled_state)))
             ≤ length (requests_by 0 (NET cancelled_state)) + 1)%nat
          ∧ is_alive w' = false
          ∧ at_ w' = WDone
          ∧ ∃ evs1 o evs2 w1,
              steps 0 (first_page 2 11) 5 = evs1 ++ EvThread 0 o :: evs2
              ∧ THREADS (exec test_args evs1 cancelled_state) !! 0%nat
                = Some w1
              ∧ at_ w1 = WRelease ∧ proxy w1 = Some "p5"
              ∧ PROXIES (exec test_args (evs1 ++ [EvThread 0 o])
                           cancelled_state)
                = PROXIES (exec test_args evs1 cancelled_state) ++ ["p5"].
Proof.
  assert (THREADS cancelled_state !! 0%nat = Some cancelled_thread) as Hw
    by (vm_compute; reflexivity).
  assert (proxy_bound cancelled_thread) as Hb by (intros _; by eexists).
  split; [exact (conj Hw (conj eq_refl Hb))|].
  assert (5 ≤ steps_of 0 (steps 0 (first_page 2 11) 5))%nat as Hfive
    by (vm_compute; lia).
  assert (at_ cancelled_thread ≠ WDone) as Hat by (intros Hat; discriminate Hat).
  destruct (cancelled_thread_stops test_args cancelled_state 0
              cancelled_thread (steps 0 (first_page 2 11) 5) Hw eq_refl Hb)
    as (w' & Hw' & Hkill & Hreq & Hdead & Hdone & Hrelease).
  destruct (Hrelease Hat (Hdone eq_refl Hfive))
    as (evs1 & o & evs2 & w1 & p & Hevs & Hw1 & Hat1 & Hp1 & HP & Hsame).
  assert (Some "p5" = Some p) as Hp.
  { apply Hsame; [reflexivity|]. intros Htry. discriminate Htry. }
  injection Hp as <-.
  exists w'.
  repeat (split; [first [exact Hw' | exact Hkill | exact Hreq
                        | exact (Hdead Hfive)
                        | exact (Hdone eq_refl Hfive)]|]).
  exists evs1, o, evs2, w1.
  exact (conj Hevs (conj Hw1 (conj Hat1 (conj Hp1 HP)))).
Defined.

(** ** The other properties at concrete inputs *)

(** [nothing_happens_after_export] on the run over four pages, followed by
    two further steps of thread 0. *)
Lemma nothing_happens_after_export_witness :
  MAIN (exec test_args four_pages_run (initial five_proxies)) = MFinished
  ∧ exec test_args (four_pages_run ++ steps 0 GetRaises 2)
      (initial five_proxies)
    = exec test_args four_pages_run (initial five_proxies).
Proof.
  assert (MAIN (exec test_args four_pages_run (initial five_proxies))
          = MFinished) as Hfin by (vm_compute; reflexivity).
  split; [exact Hfin|].
  exact (nothing_happens_after_export test_args five_proxies four_pages_run
           (steps 0 GetRaises 2) Hfin).
Defined.

(** [every_response_advances_or_counts] on a request that raises. *)
Lemma every_response_advances_or_counts_witness :
  at_ fetching_thread = WFetch
  ∧ let '(w', s') := run_step 3 GetRaises fetching_thread (initial []) in
    at_ w' = WSleep
    ∧ NET s' = NET (initial []) ++ [thread_request 3 fetching_thread]
    ∧ ((counter w' = counter fetching_thread + 1 ∧ proxy_fail_counter w' = 0)
       ∨ (counter w' = counter fetching_thread
          ∧ proxy_fail_counter w'
            = proxy_fail_counter fetching_thread + 1)).
Proof.
  split; [reflexivity|].
  exact (every_response_advances_or_counts 3 GetRaises fetching_thread
           (initial []) eq_refl).
Defined.

(** [bad_item_keeps_the_items_before_it] on a page with [null] between two
    hits. *)
Lemma bad_item_keeps_the_items_before_it_witness :
  (at_ fetching_thread = WFetch ∧ raise_for_status 200 = false
   ∧ bad_item_dict !! "data"
     = Some (JArr ((JObj <$> [hit "first"]) ++ JNull :: [JObj (hit "second")]))
   ∧ ∀ r, JNull ≠ JObj r)
  ∧ let '(w', s') :=
      run_step 3 (Response 200 (Some (JObj bad_item_dict))) fetching_thread
        (initial []) in
    RESULTS s' = RESULTS (initial []) ++ (Result_of_dict <$> [hit "first"])
    ∧ counter w' = counter fetching_thread
    ∧ proxy_fail_counter w' = proxy_fail_counter fetching_thread + 1
    ∧ at_ w' = WSleep.
Proof.
  assert (∀ r, JNull ≠ JObj r) as Hbad by (intros r Hr; discriminate Hr).
  split; [split_and!; [reflexivity..|exact Hbad]|].
  exact (bad_item_keeps_the_items_before_it 3 200 bad_item_dict
           [hit "first"] JNull [JObj (hit "second")] fetching_thread
           (initial []) eq_refl eq_refl eq_refl Hbad).
Defined.

(** [forced_exit_takes_two_interrupts] on the run with two Ctrl-C. *)
Lemma forced_exit_takes_two_interrupts_witness :
  MAIN (exec test_args forced_exit_run (initial five_proxies)) = MExited
  ∧ (2 ≤ interrupts forced_exit_run)%nat.
Proof.
  assert (MAIN (exec test_args forced_exit_run (initial five_proxies))
          = MExited) as Hexit by (vm_compute; reflexivity).
  split; [exact Hexit|].
  exact (forced_exit_takes_two_interrupts test_args five_proxies
           forced_exit_run Hexit).
Defined.

(** [no_interrupt_sets_no_flag] on the run over four pages. *)
Lemma no_interrupt_sets_no_flag_witness :
  interrupts four_pages_run = 0%nat
  ∧ Forall (λ w, kill_received w = false)
      (THREADS (exec test_args four_pages_run (initial five_proxies))).
Proof.
  split; [reflexivity|].
  exact (no_interrupt_sets_no_flag test_args five_proxies four_pages_run
           eq_refl).
Defined.

(** [search_sends_one_request] on a request that raises. *)
Lemma search_sends_one_request_witness :
  ("test" ≠ "" ∧ 0 < 3)
  ∧ NET (search GetRaises (Some "test") (Some 3) (initial five_proxies))
    = NET (initial five_proxies) ++ [first_request "test" 3].
Proof.
  assert ("test" ≠ "") as Hq by (intros Hq; discriminate Hq).
  assert (0 < 3) as Hpage by lia.
  split; [exact (conj Hq Hpage)|].
  exact (search_sends_one_request GetRaises "test" 3 (initial five_proxies)
           Hq Hpage).
Defined.

(** [missing_last_page_keeps_first_page] on a body without
    ["last_page"]. *)
Lemma missing_last_page_keeps_first_page_witness :
  ("test" ≠ "" ∧ 0 < 1 ∧ raise_for_status 200 = false
   ∧ no_last_page_dict !! "total" = Some (JNum 40)
   ∧ no_last_page_dict !! "last_page" = None
   ∧ no_last_page_dict !! "data" = Some (JArr (JObj <$> two_hits)))
  ∧ let s' := search (Response 200 (Some (JObj no_last_page_dict)))
                (Some "test") (Some 1) (initial five_proxies) in
    RESULTS s' = RESULTS (initial five_proxies) ++ (Result_of_dict <$> two_hits)
    ∧ THREADS s' = THREADS (initial five_proxies)
    ∧ last (STDOUT s') = Some (L_exception TypeError).
Proof.
  assert ("test" ≠ "") as Hq by (intros Hq; discriminate Hq).
  assert (0 < 1) as Hpage by lia.
  split; [split_and!; [exact Hq|exact Hpage|reflexivity..]|].
  exact (missing_last_page_keeps_first_page 200 no_last_page_dict 40 two_hits
           "test" 1 (initial five_proxies) Hq Hpage eq_refl eq_refl eq_refl
           eq_refl).
Defined.

(** [missing_data_stops_the_dispatch] on a body with ["total"] only. *)
Lemma missing_data_stops_the_dispatch_witness :
  ("test" ≠ "" ∧ 0 < 1 ∧ raise_for_status 200 = false
   ∧ no_data_dict !! "total" = Some (JNum 40)
   ∧ no_data_dict !! "data" = None)
  ∧ search (Response 200 (Some (JObj no_data_dict))) (Some "test") (Some 1)
      (initial five_proxies)
    = print (L_exception TypeError)
        (send (first_request "test" 1) (initial five_proxies)).
Proof.
  assert ("test" ≠ "") as Hq by (intros Hq; discriminate Hq).
  assert (0 < 1) as Hpage by lia.
  split; [split_and!; [exact Hq|exact Hpage|reflexivity..]|].
  exact (missing_data_stops_the_dispatch 200 no_data_dict 40 "test" 1
           (initial five_proxies) Hq Hpage eq_refl eq_refl eq_refl).
Defined.

(** [proxies_are_exclusive] on the run over four pages, before the
    export. *)
Lemma proxies_are_exclusive_witness :
  NoDup five_proxies
  ∧ NoDup (PROXIES (exec test_args four_pages_threads (initial five_proxies))
           ++ held_proxies
                (THREADS (exec test_args four_pages_threads
                            (initial five_proxies)))).
Proof.
  assert (NoDup five_proxies) as Hnodup
    by (apply (bool_decide_unpack _); vm_compute; exact I).
  split; [exact Hnodup|].
  exact (proxies_are_exclusive test_args four_pages_threads five_proxies
           Hnodup).
Defined.

(** [failing_thread_takes_at_most_two_proxies] on thread 0 and fifty
    responses with status 503. *)
Lemma failing_thread_takes_at_most_two_proxies_witness :
  (THREADS dispatched_state !! 0%nat = Some (SearchThread_init 0 "test" 2 4)
   ∧ at_ (SearchThread_init 0 "test" 2 4) = WStart
   ∧ Forall (λ o, fails o = true) (replicate 50 (Response 503 None)))
  ∧ (length (PROXIES dispatched_state)
     ≤ length (PROXIES (exec test_args
                          (EvThread 0 <$> replicate 50 (Response 503 None))
                          dispatched_state)) + 2)%nat.
Proof.
  assert (THREADS dispatched_state !! 0%nat
          = Some (SearchThread_init 0 "test" 2 4)) as Hw
    by (vm_compute; reflexivity).
  assert (Forall (λ o, fails o = true) (replicate 50 (Response 503 None)))
    as Hfail by (apply Forall_replicate; reflexivity).
  split; [exact (conj Hw (conj eq_refl Hfail))|].
  exact (failing_thread_takes_at_most_two_proxies test_args dispatched_state
           0 (SearchThread_init 0 "test" 2 4)
           (replicate 50 (Response 503 None)) Hw eq_refl Hfail).
Defined.


(** [finished_thread_has_requested_its_pages] on thread 0 of the run over
    four pages and its page 2. *)
Lemma finished_thread_has_requested_its_pages_witness :
  (THREADS (exec test_args four_pages_run (initial five_proxies)) !! 0%nat
   = Some finished_thread
   ∧ at_ finished_thread = WDone ∧ kill_received finished_thread = false
   ∧ start_page finished_thread ≤ 2 < end_page finished_thread)
  ∧ 2 ∈ pages_by 0 (NET (exec test_args four_pages_run (initial five_proxies))).
Proof.
  assert (THREADS (exec test_args four_pages_run (initial five_proxies))
            !! 0%nat = Some finished_thread) as Hw
    by (vm_compute; reflexivity).
  assert (start_page finished_thread ≤ 2 < end_page finished_thread) as Hp
    by (simpl; lia).
  split; [exact (conj Hw (conj eq_refl (conj eq_refl Hp)))|].
  exact (finished_thread_has_requested_its_pages test_args four_pages_run
           five_proxies 0 finished_thread 2 Hw eq_refl eq_refl Hp).
Defined.

(** [threads_fetch_disjoint_pages] on the run over four pages. *)
Lemma threads_fetch_disjoint_pages_witness :
  (keyword test_args ≠ "" ∧ 0 < default 1 (page test_args)
   ∧ raise_for_status 200 = false
   ∧ page_body_dict 40 1 4 two_hits !! "total" = Some (JNum 40)
   ∧ page_body_dict 40 1 4 two_hits !! "current_page" = Some (JNum 1)
   ∧ page_body_dict 40 1 4 two_hits !! "last_page" = Some (JNum 4)
   ∧ page_body_dict 40 1 4 two_hits !! "data"
     = Some (JArr (JObj <$> two_hits)))
  ∧ let s := exec test_args
               (EvMain (Response 200
                          (Some (JObj (page_body_dict 40 1 4 two_hits))))
                  false :: steps 0 (first_page 2 4) 7)
               (initial five_proxies) in
    range_of <$> THREADS s
      = thread_ranges (ceil_div (4 - 1) (Z.of_nat NUMBER_OF_THREADS)) 4
          (seq 0 NUMBER_OF_THREADS) (1 + 1)
    ∧ (∀ r i, r ∈ NET s → req_by r = Some i →
              ∃ w, THREADS s !! i = Some w
                   ∧ start_page w ≤ req_page r < end_page w)
    ∧ (∀ r1 r2 i j, r1 ∈ NET s → r2 ∈ NET s →
                    req_by r1 = Some i → req_by r2 = Some j → i ≠ j →
                    req_page r1 ≠ req_page r2).
Proof.
  assert (keyword test_args ≠ "") as Hq by (intros Hq; discriminate Hq).
  assert (0 < default 1 (page test_args)) as Hpage by (simpl; lia).
  split; [split_and!; [exact Hq|exact Hpage|reflexivity..]|].
  exact (threads_fetch_disjoint_pages test_args five_proxies 200
           (page_body_dict 40 1 4 two_hits) 40 1 4 two_hits false
           (steps 0 (first_page 2 4) 7) Hq Hpage eq_refl eq_refl eq_refl
           eq_refl eq_refl).
Defined.
